(** * MIDC chatbot: the smart query handler ([improved_query_handler.py])

    A shallow embedding of [SmartQueryHandler] and the properties of its two
    entry points, [improve_query] (the query rewriter) and
    [should_respond_in_marathi] (the language-preference classifier).

    Python strings are sequences of Unicode code points and are modelled as
    [list N].  The string methods the handler calls ([lower], [split], [join],
    [replace], [in]) and the one regular expression it uses are modelled in
    module [Py]; the handler itself is module [SmartQueryHandler].  The calls
    to [print] only write to the console and are left out. *)

From Stdlib Require Import List NArith ZArith Bool Lia String Ascii PeanoNat.
From Stdlib Require Import DecimalString.
Import ListNotations.

Set Implicit Arguments.

(* ================================================================== *)
(** * The Python runtime the handler relies on *)
(* ================================================================== *)

Module Py.

Local Open Scope N_scope.

(** A [str] is a sequence of code points. *)
Definition str := list N.

(** ** String literals

    The tables of the handler are written in the source as UTF-8 text; [py]
    reads such a literal (Rocq keeps it as bytes) into its code points. *)

Fixpoint utf8_go (need : nat) (acc : N) (bs : list N) : str :=
  match bs with
  | [] => []
  | b :: r =>
    match need with
    | O => if b <? 0x80 then b :: utf8_go 0 0 r
           else if b <? 0xE0 then utf8_go 1 (N.land b 0x1F) r
           else if b <? 0xF0 then utf8_go 2 (N.land b 0x0F) r
           else utf8_go 3 (N.land b 0x07) r
    | S k => let acc' := acc * 64 + N.land b 0x3F in
             match k with
             | O => acc' :: utf8_go 0 0 r
             | _ => utf8_go k acc' r
             end
    end
  end.

Definition py (s : string) : str :=
  utf8_go 0 0 (map N_of_ascii (list_ascii_of_string s)).

(** ** Equality and membership *)

Fixpoint str_eqb (a b : str) : bool :=
  match a, b with
  | [], [] => true
  | x :: a', y :: b' => (x =? y) && str_eqb a' b'
  | _, _ => false
  end.

(** [x in l] for a list of strings. *)
Definition list_contains (x : str) (l : list str) : bool :=
  existsb (str_eqb x) l.

(** [s.startswith(p)]. *)
Fixpoint startswith (p s : str) : bool :=
  match p, s with
  | [], _ => true
  | _ :: _, [] => false
  | a :: p', b :: s' => (a =? b) && startswith p' s'
  end.

(** [sub in s] for strings: substring search. *)
Fixpoint contains (sub s : str) : bool :=
  startswith sub s ||
  match s with
  | [] => false
  | _ :: s' => contains sub s'
  end.

(** ** The Unicode database

    What CPython reads from its Unicode tables for code points outside ASCII
    is not part of this repository; it is a parameter of the model.  ASCII is
    fixed below, so every function computes on ASCII text whatever the
    database is. *)

Record unicode_db : Type := {
  (** the full lower-case mapping of a code point (one to three code points) *)
  to_lower_full : N -> str;
  (** the "final sigma" context test, at an index of a string *)
  final_sigma : str -> nat -> bool;
  (** [str.isalnum] on one code point *)
  isalnum : N -> bool
}.

(** A database with no cased and no alphanumeric code point outside ASCII. *)
Definition ascii_db : unicode_db :=
  {| to_lower_full := fun c => [c];
     final_sigma := fun _ _ => false;
     isalnum := fun _ => false |}.

(** [Py_UNICODE_ISSPACE]: the code points [str.split] and the regular
    expression class [\s] treat as white space. *)
Definition isspace (c : N) : bool :=
  ((0x09 <=? c) && (c <=? 0x0D)) || ((0x1C <=? c) && (c <=? 0x20)) ||
  (c =? 0x85) || (c =? 0xA0) || (c =? 0x1680) ||
  ((0x2000 <=? c) && (c <=? 0x200A)) ||
  (c =? 0x2028) || (c =? 0x2029) || (c =? 0x202F) || (c =? 0x205F) ||
  (c =? 0x3000).

Definition ascii_lower (c : N) : N :=
  if (65 <=? c) && (c <=? 90) then c + 32 else c.

Definition ascii_isalnum (c : N) : bool :=
  ((48 <=? c) && (c <=? 57)) || ((65 <=? c) && (c <=? 90)) ||
  ((97 <=? c) && (c <=? 122)).

Section WithUnicode.

Variable U : unicode_db.

(** The regular expression class [\w]: alphanumeric or underscore. *)
Definition isword (c : N) : bool :=
  (if c <? 128 then ascii_isalnum c else isalnum U c) || (c =? 95).

(** [str.lower]: every code point is replaced by its lower-case mapping; a
    capital sigma (U+03A3) becomes a final or a medial small sigma by its
    context in the whole string. *)
Definition lower_ucs4 (whole : str) (i : nat) (c : N) : str :=
  if c =? 0x3A3 then [if final_sigma U whole i then 0x3C2 else 0x3C3]
  else if c <? 128 then [ascii_lower c]
  else to_lower_full U c.

Fixpoint do_lower (whole : str) (i : nat) (s : str) : str :=
  match s with
  | [] => []
  | c :: r => lower_ucs4 whole i c ++ do_lower whole (S i) r
  end.

Definition lower (s : str) : str := do_lower s 0 s.

End WithUnicode.

(** ** [split], [join], [replace] *)

(** [s.split()]: the maximal runs of non-space code points, in order.
    [cur] is the run being read. *)
Fixpoint split_go (cur : str) (s : str) : list str :=
  match s with
  | [] => match cur with [] => [] | _ => [cur] end
  | c :: r =>
    if isspace c
    then match cur with [] => split_go [] r | _ => cur :: split_go [] r end
    else split_go (cur ++ [c]) r
  end.

Definition split (s : str) : list str := split_go [] s.

(** [sep.join(l)]. *)
Fixpoint join (sep : str) (l : list str) : str :=
  match l with
  | [] => []
  | [x] => x
  | x :: r => x ++ sep ++ join sep r
  end.

(** [s.replace(old, new)] for a non-empty [old]: scan from the left; where
    [old] starts, emit [new] and skip [old]; elsewhere copy one code point.
    [skip] counts the code points of a matched [old] still to be dropped. *)
Fixpoint replace_go (old new : str) (skip : nat) (s : str) : str :=
  match s with
  | [] => []
  | c :: r =>
    match skip with
    | S k => replace_go old new k r
    | O => if startswith old s
           then new ++ replace_go old new (List.length old - 1) r
           else c :: replace_go old new 0 r
    end
  end.

(** With an empty [old], Python puts [new] before every code point and at
    the end. *)
Definition replace (s old new : str) : str :=
  match old with
  | [] => new ++ flat_map (fun c => c :: new) s
  | _ => replace_go old new 0 s
  end.

(** ** Overlaps

    Used to state when a replacement cannot form a string again. *)

(** The non-empty suffixes of a string. *)
Fixpoint tails (s : str) : list str :=
  match s with
  | [] => []
  | _ :: r => s :: tails r
  end.

(** One of the two strings starts with the other. *)
Definition comparable (a b : str) : bool :=
  startswith a b || startswith b a.

(** [w] and an inserted word [c] cannot overlap: no non-empty suffix of one
    is comparable with the other. *)
Definition border_free (w c : str) : bool :=
  forallb (fun w' => negb (comparable w' c)) (tails w)
  && forallb (fun c' => negb (comparable c' w)) (tails c).

(** A token: not empty, no white space. *)
Definition is_token (w : str) : bool :=
  match w with [] => false | _ => true end
  && forallb (fun c => negb (isspace c)) w.

(** ** The regular expression [ro\s+(\w+)]

    [re.findall] returns the captured group of every match, scanning from the
    left and resuming after each match.  No white-space code point is
    alphanumeric, so the greedy [\s+] and [\w+] never backtrack. *)

Fixpoint span (p : N -> bool) (s : str) : str * str :=
  match s with
  | [] => ([], [])
  | c :: r => if p c then let '(a, b) := span p r in (c :: a, b)
              else ([], s)
  end.

Section WithUnicodeRe.

Variable U : unicode_db.

(** A match at the start of [s]: the captured word and the match length. *)
Definition match_ro (s : str) : option (str * nat) :=
  match s with
  | 114 :: 111 :: r =>
    let '(ws, r1) := span isspace r in
    match ws with
    | [] => None
    | _ => let '(w, _) := span (isword U) r1 in
           match w with
           | [] => None
           | _ => Some (w, (2 + List.length ws + List.length w)%nat)
           end
    end
  | _ => None
  end.

Fixpoint findall_ro_go (skip : nat) (s : str) : list str :=
  match s with
  | [] => []
  | _ :: r =>
    match skip with
    | S k => findall_ro_go k r
    | O => match match_ro s with
           | Some (w, n) => w :: findall_ro_go (n - 1) r
           | None => findall_ro_go 0 r
           end
    end
  end.

Definition findall_ro (s : str) : list str := findall_ro_go 0 s.

End WithUnicodeRe.

(** ** Exceptions

    The only operation of the handler that can raise is indexing a dict,
    [d[k]], which raises [KeyError] on a missing key. *)

Inductive exc (A : Type) : Type :=
| Ok (a : A)
| KeyError (key : str).

Arguments Ok {A} a.
Arguments KeyError {A} key.

Definition bind {A B} (m : exc A) (f : A -> exc B) : exc B :=
  match m with
  | Ok a => f a
  | KeyError k => KeyError k
  end.

(** ** Dicts

    A dict keeps its keys in insertion order, and the handler iterates over
    [items()]: an association list.  In a dict display a repeated key keeps
    its first position and takes the last value. *)

Definition dict (V : Type) := list (str * V).

Fixpoint setitem {V} (d : dict V) (k : str) (v : V) : dict V :=
  match d with
  | [] => [(k, v)]
  | (k', v') :: r =>
    if str_eqb k' k then (k', v) :: r else (k', v') :: setitem r k v
  end.

Definition dict_display {V} (entries : list (str * V)) : dict V :=
  fold_left (fun d kv => setitem d (fst kv) (snd kv)) entries [].

Fixpoint get {V} (d : dict V) (k : str) : option V :=
  match d with
  | [] => None
  | (k', v) :: r => if str_eqb k' k then Some v else get r k
  end.

(** [k in d] *)
Definition dict_contains {V} (d : dict V) (k : str) : bool :=
  match get d k with Some _ => true | None => false end.

(** [d[k]] *)
Definition getitem {V} (d : dict V) (k : str) : exc V :=
  match get d k with Some v => Ok v | None => KeyError k end.

Definition keys {V} (d : dict V) : list str := map fst d.

(** ** ASCII text *)

Definition is_ascii (s : str) : bool := forallb (fun c => c <? 128) s.

(** ASCII text that [lower] leaves as it is: no capital letter. *)
Definition is_lower_ascii (s : str) : bool :=
  forallb (fun c => (c <? 128) && negb ((65 <=? c) && (c <=? 90))) s.

(** Two code points that are equal or both outside ASCII. *)
Definition agree_on_ascii (a b : N) : Prop :=
  a = b \/ (128 <= a /\ 128 <= b).

(** A [for] loop whose body may raise: the loop state is threaded through
    the elements in order and the first exception ends the loop. *)
Fixpoint for_each {A S} (body : S -> A -> exc S) (l : list A) (s : S)
  : exc S :=
  match l with
  | [] => Ok s
  | x :: r => bind (body s x) (for_each body r)
  end.

End Py.

Notation "x <- m ;; k" := (Py.bind m (fun x => k))
  (at level 61, m at next level, right associativity).
Notation "' pat <- m ;; k" :=
  (Py.bind m (fun x => match x with pat => k end))
  (at level 61, pat pattern, m at next level, right associativity).

(* ================================================================== *)
(** * The handler *)
(* ================================================================== *)

Module SmartQueryHandler.

Import Py.

(** ** The tables set up by [__init__] *)

(** City to regional office(s). *)
Definition region_mappings : dict str := dict_display [
  (py "pune", py "RO PUNE-I RO PUNE-II");
  (py "punya", py "RO PUNE-I RO PUNE-II");
  (py "puny", py "RO PUNE-I RO PUNE-II");
  (py "chandrapur", py "RO Chandrapur");
  (py "baramati", py "RO Baramati");
  (py "nagpur", py "RO NAGPUR");
  (py "ratnagiri", py "RO RATNAGIRI");
  (py "aurangabad", py "RO AURANGABAD");
  (py "mumbai", py "RO THANE-I RO THANE-II");
  (py "thane", py "RO THANE-I RO THANE-II");
  (py "amravati", py "RO AMRAVATI");
  (py "dhule", py "RO DHULE");
  (py "jalgaon", py "RO Jalgaon");
  (py "bhusaval", py "RO Jalgaon");
  (py "bhusawal", py "RO Jalgaon");
  (py "bhusawad", py "RO Jalgaon");
  (py "bhusawal", py "RO Jalgaon");
  (py "पुणे", py "RO PUNE-I RO PUNE-II");
  (py "चंद्रपूर", py "RO Chandrapur");
  (py "बारामती", py "RO Baramati");
  (py "नागपूर", py "RO NAGPUR");
  (py "रत्नागिरी", py "RO RATNAGIRI");
  (py "औरंगाबाद", py "RO AURANGABAD");
  (py "मुंबई", py "RO THANE-I RO THANE-II");
  (py "ठाणे", py "RO THANE-I RO THANE-II");
  (py "अमरावती", py "RO AMRAVATI");
  (py "धुळे", py "RO DHULE");
  (py "जळगाव", py "RO Jalgaon");
  (py "भुसावळ", py "RO Jalgaon");
  (py "भुसावल", py "RO Jalgaon")
].

(** Industrial area to regional office. *)
Definition area_to_ro_mappings : dict str := dict_display [
  (py "bhusaval", py "RO Jalgaon");
  (py "bhusawal", py "RO Jalgaon");
  (py "bhusawad", py "RO Jalgaon");
  (py "talegaon", py "RO PUNE-I");
  (py "chakan", py "RO PUNE-I");
  (py "hinjawadi", py "RO PUNE-II");
  (py "rajiv gandhi infotech park", py "RO PUNE-II");
  (py "wardha", py "RO Chandrapur");
  (py "addl. chandrapur", py "RO Chandrapur");
  (py "baramati", py "RO Baramati");
  (py "nagpur", py "RO NAGPUR");
  (py "borgaon meghe", py "RO NAGPUR");
  (py "bhivapur", py "RO NAGPUR");
  (py "ratnagiri", py "RO RATNAGIRI");
  (py "aurangabad", py "RO AURANGABAD");
  (py "thane", py "RO THANE-I");
  (py "ambarnath", py "RO THANE-II");
  (py "kalyan", py "RO THANE-II");
  (py "bhiwandi", py "RO THANE-II");
  (py "amravati", py "RO AMRAVATI");
  (py "ghatanji", py "RO AMRAVATI");
  (py "bhatkuli", py "RO AMRAVATI");
  (py "dhule", py "RO DHULE");
  (py "nandurbar", py "RO DHULE");
  (py "bhaler", py "RO DHULE")
].

(** Property-type term to category. *)
Definition property_mappings : dict str := dict_display [
  (py "residential", py "Residential");
  (py "commercial", py "Commercial");
  (py "industrial", py "Industrial");
  (py "plots", py "Industrial");
  (py "plot", py "Industrial");
  (py "land", py "Industrial");
  (py "price", py "Industrial");
  (py "rates", py "Industrial");
  (py "औद्योगिक", py "Industrial");
  (py "कॉमर्शियल", py "Commercial");
  (py "रहिवासी", py "Residential");
  (py "प्लॉट", py "Industrial");
  (py "जमीन", py "Industrial");
  (py "किंमत", py "Industrial");
  (py "दर", py "Industrial")
].

(** English-looking words with a designated form. *)
Definition mixed_language_mappings : dict str := dict_display [
  (py "punya", py "pune");
  (py "puny", py "pune");
  (py "plots", py "plots");
  (py "aahet", py "are");
  (py "aahe", py "are");
  (py "ka", py "what");
  (py "kay", py "what");
  (py "price", py "price");
  (py "kimi", py "price");
  (py "kimti", py "price");
  (py "dar", py "rate");
  (py "rate", py "rate");
  (py "rates", py "rates")
].

(** Romanized Marathi token to English gloss. *)
Definition marathi_transliteration_tokens : dict str := dict_display [
  (py "ka", py "what");
  (py "kay", py "what");
  (py "kuthe", py "where");
  (py "kase", py "how");
  (py "kadhi", py "when");
  (py "kiti", py "how much");
  (py "koni", py "who");
  (py "kashi", py "how");
  (py "kashala", py "why");
  (py "kuthun", py "from where");
  (py "kuthun", py "from where");
  (py "kuthun", py "from where");
  (py "madhe", py "in");
  (py "madhye", py "in");
  (py "madhyat", py "in");
  (py "var", py "on");
  (py "la", py "to");
  (py "hun", py "from");
  (py "pasun", py "from");
  (py "sathi", py "for");
  (py "barobar", py "with");
  (py "sobat", py "with");
  (py "aahet", py "are");
  (py "aahe", py "are");
  (py "ahe", py "is");
  (py "nahi", py "no");
  (py "hoi", py "yes");
  (py "dya", py "give");
  (py "dakhav", py "show");
  (py "shodh", py "find");
  (py "vach", py "read");
  (py "sang", py "tell");
  (py "bol", py "say");
  (py "kar", py "do");
  (py "ghya", py "take");
  (py "de", py "give");
  (py "le", py "take");
  (py "jameen", py "land");
  (py "jameen", py "land");
  (py "bhumi", py "land");
  (py "plot", py "plot");
  (py "plots", py "plots");
  (py "bhukhand", py "plot");
  (py "bhukhand", py "plot");
  (py "sthal", py "place");
  (py "jaga", py "place");
  (py "sthala", py "place");
  (py "kimti", py "price");
  (py "kimmat", py "price");
  (py "dar", py "rate");
  (py "mulya", py "value");
  (py "kharcha", py "cost");
  (py "paisa", py "money");
  (py "rupya", py "rupees");
  (py "rs", py "rupees");
  (py "rupees", py "rupees");
  (py "motha", py "big");
  (py "lahan", py "small");
  (py "swast", py "cheap");
  (py "mahag", py "expensive");
  (py "jast", py "more");
  (py "kami", py "less");
  (py "sagla", py "all");
  (py "kiti", py "how many");
  (py "ek", py "one");
  (py "don", py "two");
  (py "teen", py "three");
  (py "char", py "four");
  (py "pach", py "five");
  (py "aata", py "now");
  (py "aaj", py "today");
  (py "kal", py "yesterday");
  (py "udya", py "tomorrow");
  (py "parso", py "day after");
  (py "upalabdh", py "available");
  (py "mila", py "got");
  (py "nahi", py "not");
  (py "hoi", py "yes");
  (py "nako", py "no");
  (py "kendr", py "center");
  (py "kendr", py "center");
  (py "kendr", py "center");
  (py "karya", py "work");
  (py "karyalay", py "office");
  (py "prant", py "region");
  (py "prant", py "region");
  (py "prant", py "region");
  (py "ani", py "and");
  (py "pan", py "but");
  (py "ki", py "or");
  (py "mhanun", py "therefore");
  (py "karan", py "because");
  (py "jari", py "even if");
  (py "tar", py "then");
  (py "maga", py "then");
  (py "nantar", py "after");
  (py "adhi", py "before");
  (py "krupaya", py "please");
  (py "dhanyawad", py "thank you");
  (py "maaf", py "sorry");
  (py "namaskar", py "hello");
  (py "namaste", py "hello")
].

(** Root word to its surface forms. *)
Definition semantic_synonyms : dict (list str) := dict_display [
  (py "pune", [py "punya"; py "puny"; py "pune"; py "पुणे"]);
  (py "mumbai", [py "mumbai"; py "bombay"; py "मुंबई"]);
  (py "bhusaval", [py "bhusaval"; py "bhusawal"; py "bhusawad"; py "भुसावळ"]);
  (py "jalgaon", [py "jalgaon"; py "jalgon"; py "jalgaun"; py "जळगाव"]);
  (py "nagpur", [py "nagpur"; py "नागपूर"]);
  (py "aurangabad", [py "aurangabad"; py "औरंगाबाद"]);
  (py "thane", [py "thane"; py "ठाणे"]);
  (py "amravati", [py "amravati"; py "अमरावती"]);
  (py "dhule", [py "dhule"; py "धुळे"]);
  (py "chandrapur", [py "chandrapur"; py "चंद्रपूर"]);
  (py "ratnagiri", [py "ratnagiri"; py "रत्नागिरी"]);
  (py "baramati", [py "baramati"; py "बारामती"]);
  (py "plots", [py "plots"; py "plot"; py "land"; py "जमीन"; py "प्लॉट"; py "भूखंड"]);
  (py "industrial", [py "industrial"; py "औद्योगिक"; py "industry"; py "manufacturing"]);
  (py "commercial", [py "commercial"; py "कॉमर्शियल"; py "business"; py "office"]);
  (py "residential", [py "residential"; py "रहिवासी"; py "housing"; py "home"]);
  (py "price", [py "price"; py "cost"; py "rate"; py "rates"; py "किंमत"; py "दर"; py "मूल्य"]);
  (py "cheap", [py "cheap"; py "low"; py "affordable"; py "budget"; py "स्वस्त"; py "कमी"]);
  (py "expensive", [py "expensive"; py "high"; py "costly"; py "महाग"; py "जास्त"]);
  (py "available", [py "available"; py "उपलब्ध"; py "aahet"; py "aahe"; py "have"; py "got"]);
  (py "show", [py "show"; py "दाखवा"; py "dakhav"; py "display"; py "list"]);
  (py "find", [py "find"; py "search"; py "look"; py "शोध"; py "shodh"]);
  (py "get", [py "get"; py "give"; py "द्या"; py "dya"; py "provide"]);
  (py "what", [py "what"; py "ka"; py "kay"; py "काय"; py "kay"; py "which"]);
  (py "where", [py "where"; py "kuthe"; py "कुठे"; py "location"]);
  (py "how", [py "how"; py "kase"; py "कसे"; py "method"]);
  (py "when", [py "when"; py "kadhi"; py "कधी"; py "time"]);
  (py "ro", [py "ro"; py "regional office"; py "प्रादेशिक कार्यालय"]);
  (py "office", [py "office"; py "कार्यालय"; py "kendr"])
].

(** Intent label to its trigger substrings. *)
Definition intent_patterns : dict (list str) := dict_display [
  (py "availability", [py "available"; py "aahet"; py "aahe"; py "have"; py "got"; py "उपलब्ध"]);
  (py "price_inquiry", [py "price"; py "cost"; py "rate"; py "rates"; py "किंमत"; py "दर"; py "kay"; py "what"]);
  (py "location_search", [py "in"; py "madhe"; py "madhye"; py "at"; py "मध्ये"; py "location"]);
  (py "property_type", [py "plots"; py "industrial"; py "commercial"; py "residential"; py "प्लॉट"]);
  (py "comparison", [py "compare"; py "vs"; py "versus"; py "difference"; py "तुलना"]);
  (py "cheapest", [py "cheap"; py "lowest"; py "minimum"; py "स्वस्त"; py "कमी"]);
  (py "largest", [py "big"; py "large"; py "maximum"; py "मोठे"; py "जास्त"])
].

(** Canonical spelling to known variants. *)
Definition spelling_variations : dict (list str) := dict_display [
  (py "bhusaval", [py "bhusawal"; py "bhusawad"; py "bhusawal"; py "bhusaval"]);
  (py "jalgaon", [py "jalgaon"; py "jalgon"; py "jalgaun"]);
  (py "pune", [py "pune"; py "punee"; py "puna"]);
  (py "mumbai", [py "mumbai"; py "mumbay"; py "bombay"]);
  (py "chandrapur", [py "chandrapur"; py "chandrapur"; py "chandrapur"]);
  (py "nagpur", [py "nagpur"; py "nagpur"; py "nagpur"]);
  (py "aurangabad", [py "aurangabad"; py "aurangabad"; py "aurangabad"]);
  (py "amravati", [py "amravati"; py "amravati"; py "amravati"]);
  (py "dhule", [py "dhule"; py "dhule"; py "dhule"]);
  (py "ratnagiri", [py "ratnagiri"; py "ratnagiri"; py "ratnagiri"])
].

Section Methods.

Variable U : unicode_db.

(** ** [_extract_locations] *)

Definition _extract_locations (query : str) : list (str * str) :=
  let query_lower := lower U query in
  (* direct city names *)
  let cities :=
    filter (fun '(city, _) => contains city query_lower) region_mappings in
  (* industrial areas *)
  let areas :=
    filter (fun '(area, _) => contains area query_lower)
           area_to_ro_mappings in
  (* RO mentions *)
  let ro_matches := findall_ro U query_lower in
  let ros :=
    flat_map (fun ro_match =>
                filter (fun '(_, ro) => contains ro_match (lower U ro))
                       region_mappings)
             ro_matches in
  cities ++ areas ++ ros.

(** ** [_handle_spelling_mistakes] *)

(** The body of the inner loop, for one [variation] of [correct_word]. *)
Definition spelling_step (query_lower correct_word : str)
    (corrected_query variation : str) : str :=
  if contains variation query_lower
     && negb (str_eqb variation correct_word)
  then replace corrected_query variation correct_word
  else corrected_query.

Definition _handle_spelling_mistakes (query : str) : str :=
  let query_lower := lower U query in
  fold_left
    (fun corrected_query '(correct_word, variations) =>
       fold_left (spelling_step query_lower correct_word)
                 variations corrected_query)
    spelling_variations query.

(** ** [_handle_mixed_language] *)

(** The body of the loop over the words.  The loop state is
    [improved_words] and [marathi_transliteration_detected]. *)
Definition mixed_language_word (st : list str * bool) (word : str)
  : exc (list str * bool) :=
  let '(improved_words, detected) := st in
  let word_lower := lower U word in
  let found_synonym := false in
  (* Marathi transliteration tokens first *)
  '(improved_words, detected, found_synonym) <-
    (if dict_contains marathi_transliteration_tokens word_lower
     then gloss <- getitem marathi_transliteration_tokens word_lower ;;
          Ok (improved_words ++ [gloss], true, true)
     else Ok (improved_words, detected, found_synonym)) ;;
  (* semantic synonyms: the first root whose list has the word *)
  let '(improved_words, found_synonym) :=
    if negb found_synonym
    then match find (fun '(_, synonyms) => list_contains word_lower synonyms)
                    semantic_synonyms with
         | Some (root_word, _) => (improved_words ++ [root_word], true)
         | None => (improved_words, found_synonym)
         end
    else (improved_words, found_synonym) in
  (* mixed language mappings *)
  '(improved_words, found_synonym) <-
    (if negb found_synonym
        && dict_contains mixed_language_mappings word_lower
     then m <- getitem mixed_language_mappings word_lower ;;
          Ok (improved_words ++ [m], true)
     else Ok (improved_words, found_synonym)) ;;
  (* keep the original word *)
  let improved_words :=
    if negb found_synonym then improved_words ++ [word]
    else improved_words in
  Ok (improved_words, detected).

(** Returns the rewritten text and the value stored in
    [self._last_query_was_transliteration]. *)
Definition _handle_mixed_language (query : str) : exc (str * bool) :=
  let words := split query in
  '(improved_words, detected) <-
    for_each mixed_language_word words ([], false) ;;
  Ok (join (py " ") improved_words, detected).

(** ** [_detect_user_intent] *)

Definition _detect_user_intent (query : str) : list str :=
  let query_lower := lower U query in
  map fst
    (filter (fun '(_, patterns) =>
               existsb (fun pattern => contains pattern query_lower) patterns)
            intent_patterns).

(** ** [_extract_root_concepts] *)

Record concepts : Type := {
  locations : list str;
  property_types : list str;
  price_related : list str;
  availability_related : list str;
  intents : list str
}.

(** One of the four loops over [semantic_synonyms]: the roots of [roots]
    one of whose synonyms occurs in the query, in table order. *)
Definition extract_roots (query_lower : str) (roots : list str) : list str :=
  map fst
    (filter (fun '(root_word, synonyms) =>
               list_contains root_word roots
               && existsb (fun synonym => contains synonym query_lower)
                          synonyms)
            semantic_synonyms).

Definition location_roots : list str :=
  [py "pune"; py "mumbai"; py "bhusaval"; py "jalgaon"; py "nagpur";
   py "aurangabad"; py "thane"; py "amravati"; py "dhule"; py "chandrapur";
   py "ratnagiri"; py "baramati"].

Definition property_roots : list str :=
  [py "plots"; py "industrial"; py "commercial"; py "residential"].

Definition price_roots : list str := [py "price"; py "cheap"; py "expensive"].

Definition availability_roots : list str :=
  [py "available"; py "show"; py "find"; py "get"].

Definition _extract_root_concepts (query : str) : concepts :=
  let query_lower := lower U query in
  {| locations := extract_roots query_lower location_roots;
     property_types := extract_roots query_lower property_roots;
     price_related := extract_roots query_lower price_roots;
     availability_related := extract_roots query_lower availability_roots;
     intents := _detect_user_intent query |}.

(** ** [improve_query] *)

(** Step 5: the office of every found location, unless already listed. *)
Definition add_ro_context (locs : list (str * str)) (improvements : list str)
  : list str :=
  fold_left (fun imps '(_, ro) =>
               if list_contains ro imps then imps else imps ++ [ro])
            locs improvements.

(** Step 6: the category of every detected property type. *)
Definition add_property_context (prop_types : list str)
    (improvements : list str) : exc (list str) :=
  for_each (fun imps prop_type =>
              if dict_contains property_mappings prop_type
              then label <- getitem property_mappings prop_type ;;
                   Ok (imps ++ [label])
              else Ok imps)
           prop_types improvements.

(** Step 7: a phrase for every detected price term. *)
Definition add_price_context (price_terms : list str)
    (improvements : list str) : list str :=
  fold_left (fun imps price_term =>
               if str_eqb price_term (py "cheap")
               then imps ++ [py "low cost affordable budget"]
               else if str_eqb price_term (py "expensive")
               then imps ++ [py "high cost premium"]
               else imps ++ [py "price rate cost"])
            price_terms improvements.

(** Step 8: availability. *)
Definition add_availability_context (avail : list str)
    (improvements : list str) : list str :=
  match avail with
  | [] => improvements
  | _ => improvements ++ [py "available plots land"]
  end.

(** Step 9: a phrase for three of the intents. *)
Definition add_intent_context (intents : list str)
    (improvements : list str) : list str :=
  fold_left (fun imps intent =>
               if str_eqb intent (py "cheapest")
               then imps ++ [py "minimum lowest affordable"]
               else if str_eqb intent (py "largest")
               then imps ++ [py "maximum biggest"]
               else if str_eqb intent (py "comparison")
               then imps ++ [py "compare different options"]
               else imps)
            intents improvements.

(** Truth value of a list. *)
Definition truthy {A} (l : list A) : bool :=
  match l with [] => false | _ => true end.

(** The condition of step 10. *)
Definition midc_relevant (c : concepts) : bool :=
  truthy (locations c) || truthy (property_types c)
  || truthy (price_related c) || truthy (availability_related c).

(** Step 10: the MIDC context. *)
Definition add_midc_context (c : concepts) (improvements : list str)
  : list str :=
  if midc_relevant c then improvements ++ [py "MIDC Industrial Area"]
  else improvements.

(** The local variables of [improve_query] when it returns. *)
Record locals : Type := {
  l_concepts : concepts;
  l_mixed_query : str;
  l_corrected_query : str;
  l_locations : list (str * str);
  l_improvements : list str;
  l_improved_query : str
}.

(** The value [improve_query] computes.  What it prints on the way, and the
    exception a [print] can raise, are in [Console.improve_query]. *)
Definition improve_query_body (query : str) : exc locals :=
  (* Step 1 *)
  let concepts := _extract_root_concepts query in
  (* Step 2 *)
  '(mixed_query, _) <- _handle_mixed_language query ;;
  (* Step 3 *)
  let corrected_query := _handle_spelling_mistakes mixed_query in
  (* Step 4 *)
  let locations := _extract_locations corrected_query in
  let improvements := [] in
  (* Steps 5 to 10 *)
  let improvements := add_ro_context locations improvements in
  improvements <- add_property_context (property_types concepts)
                                       improvements ;;
  let improvements := add_price_context (price_related concepts)
                                        improvements in
  let improvements := add_availability_context
                        (availability_related concepts) improvements in
  let improvements := add_intent_context (intents concepts) improvements in
  let improvements := add_midc_context concepts improvements in
  (* Step 11 *)
  let improved_query :=
    match improvements with
    | [] => corrected_query
    | _ => corrected_query ++ py " " ++ join (py " ") improvements
    end in
  Ok {| l_concepts := concepts;
        l_mixed_query := mixed_query;
        l_corrected_query := corrected_query;
        l_locations := locations;
        l_improvements := improvements;
        l_improved_query := improved_query |}.

Definition improve_query (query : str) : exc str :=
  st <- improve_query_body query ;; Ok (l_improved_query st).

(** ** [should_respond_in_marathi] *)

Definition is_devanagari (c : N) : bool :=
  ((0x0900 <=? c) && (c <=? 0x097F))%N.

Definition marathi_patterns : list str :=
  [py "madhe"; py "madhye"; py "aahet"; py "aahe"; py "kay"; py "ka";
   py "kuthe"; py "dya"; py "dakhav"; py "shodh"; py "kimti"; py "dar";
   py "swast"; py "mahag"].

(** The number of elements of [l] that occur in [text]. *)
Definition count_in (l : list str) (text : str) : nat :=
  List.length (filter (fun token => contains token text) l).

Definition should_respond_in_marathi (query : str) : bool :=
  let query_lower := lower U query in
  let has_devanagari := existsb is_devanagari query in
  if has_devanagari then true
  else
    let marathi_tokens_found :=
      count_in (keys marathi_transliteration_tokens) query_lower in
    if (2 <=? marathi_tokens_found)%nat then true
    else
      let pattern_count := count_in marathi_patterns query_lower in
      if (2 <=? pattern_count)%nat then true
      else false.

End Methods.

(** ** Notions used to state the properties *)

(** *** The normalizer, token by token

    What the normalizer is specified to do with one token: the
    transliteration gloss if the lower-cased token is a transliteration key;
    otherwise the first root listing it as a synonym; otherwise its
    mixed-language form; otherwise the token itself. *)

Definition synonym_root (word_lower : str) : option str :=
  option_map fst
    (find (fun '(_, synonyms) => list_contains word_lower synonyms)
          semantic_synonyms).

Definition fall_through (word_lower word : str) : str :=
  match synonym_root word_lower with
  | Some root_word => root_word
  | None =>
    match get mixed_language_mappings word_lower with
    | Some m => m
    | None => word
    end
  end.

Definition normalize_token (U : unicode_db) (word : str) : str :=
  match get marathi_transliteration_tokens (lower U word) with
  | Some gloss => gloss
  | None => fall_through (lower U word) word
  end.

Definition is_transliteration (U : unicode_db) (word : str) : bool :=
  dict_contains marathi_transliteration_tokens (lower U word).

(** *** The improvements as a pure function *)

(** The labels step 6 appends. *)
Definition property_labels (prop_types : list str) : list str :=
  flat_map (fun prop_type =>
              match get property_mappings prop_type with
              | Some label => [label]
              | None => []
              end)
           prop_types.

(** The improvements before the MIDC context is added. *)
Definition context_phrases (U : unicode_db) (query : str) : list str :=
  let c := _extract_root_concepts U query in
  let corrected_query :=
    _handle_spelling_mistakes U
      (join (py " ") (map (normalize_token U) (split query))) in
  add_intent_context (intents c)
    (add_availability_context (availability_related c)
       (add_price_context (price_related c)
          (add_ro_context (_extract_locations U corrected_query) []
           ++ property_labels (property_types c)))).

(** Every phrase steps 5 to 9 can append: the offices of the two location
    tables, the categories of the property table and the fixed phrases. *)
Definition phrase_pool : list str :=
  map snd region_mappings ++ map snd area_to_ro_mappings
  ++ map snd property_mappings
  ++ [py "low cost affordable budget"; py "high cost premium";
      py "price rate cost"; py "available plots land";
      py "minimum lowest affordable"; py "maximum biggest";
      py "compare different options"].

(** *** Queries no table matches *)

(** None of the strings of [l] occurs in [text]. *)
Definition none_occurs (l : list str) (text : str) : bool :=
  forallb (fun k => negb (contains k text)) l.

Section NoMatch.

Variable U : unicode_db.

(** No token is a transliteration key, a synonym or a mixed-language key. *)
Definition no_token_match (query : str) : bool :=
  forallb (fun word =>
             let word_lower := lower U word in
             negb (dict_contains marathi_transliteration_tokens word_lower)
             && forallb (fun '(_, synonyms) =>
                           negb (list_contains word_lower synonyms))
                        semantic_synonyms
             && negb (dict_contains mixed_language_mappings word_lower))
          (split query).

(** No variant other than the canonical spelling occurs in [text]. *)
Definition no_spelling_match (text : str) : bool :=
  forallb (fun '(correct_word, variations) =>
             forallb (fun variation =>
                        str_eqb variation correct_word
                        || negb (contains variation (lower U text)))
                     variations)
          spelling_variations.

(** No city, no industrial area, and no office named after "ro". *)
Definition no_location_match (text : str) : bool :=
  none_occurs (keys region_mappings) (lower U text)
  && none_occurs (keys area_to_ro_mappings) (lower U text)
  && forallb (fun ro_match =>
                forallb (fun '(_, ro) =>
                           negb (contains ro_match (lower U ro)))
                        region_mappings)
             (findall_ro U (lower U text)).

(** No synonym of a location, property-type, price or availability root,
    and no intent trigger. *)
Definition no_concept_match (query : str) : bool :=
  forallb (fun '(root_word, synonyms) =>
             negb (list_contains root_word
                     (location_roots ++ property_roots ++ price_roots
                      ++ availability_roots))
             || none_occurs synonyms (lower U query))
          semantic_synonyms
  && forallb (fun '(_, patterns) => none_occurs patterns (lower U query))
             intent_patterns.

(** The stages after the normalizer read the tokens of the query joined by
    single spaces. *)
Definition no_table_match (query : str) : bool :=
  let text := join (py " ") (split query) in
  no_token_match query
  && no_spelling_match text
  && no_location_match text
  && no_concept_match query.

End NoMatch.

(** *** Variants that a replacement cannot form again *)

(** The canonical spellings some replacement inserts. *)
Definition inserted_words : list str :=
  map fst
    (filter (fun '(correct_word, variations) =>
               existsb (fun v => negb (str_eqb v correct_word)) variations)
            spelling_variations).

(** The variant cannot be formed by inserting a canonical spelling. *)
Definition cleanly_replaced (variation : str) : bool :=
  forallb (border_free variation) inserted_words.

(** The misspellings of the table: the variants other than the canonical
    spelling, in table order. *)
Definition misspellings : list str :=
  flat_map (fun '(correct_word, variations) =>
              filter (fun v => negb (str_eqb v correct_word)) variations)
           spelling_variations.

(** The steps of the spelling corrector in the order they run. *)
Definition spelling_steps : list (str * str) :=
  flat_map (fun '(correct_word, variations) =>
              map (pair correct_word) variations)
           spelling_variations.

End SmartQueryHandler.

(* ================================================================== *)
(** * More of the runtime, and notions for further properties *)
(* ================================================================== *)

Module PyMore.

Import Py.

(** [s.lstrip()], [s.rstrip()] and [s.strip()]: white space is removed from
    the ends. *)
Fixpoint lstrip (s : str) : str :=
  match s with
  | [] => []
  | c :: r => if isspace c then lstrip r else s
  end.

Definition rstrip (s : str) : str := rev (lstrip (rev s)).

Definition strip (s : str) : str := rstrip (lstrip s).

(** [s.split(sep, 1)] for a non-empty [sep]: the text before and the text
    after the leftmost occurrence of [sep], or [s] alone if there is none. *)
Fixpoint partition_go (sep before s : str) : option (str * str) :=
  if startswith sep s then Some (before, skipn (List.length sep) s)
  else match s with
       | [] => None
       | c :: r => partition_go sep (before ++ [c]) r
       end.

Definition split_once (s sep : str) : list str :=
  match partition_go sep [] s with
  | Some (before, after) => [before; after]
  | None => [s]
  end.

(** Indexing a list, [l[i]], raises [IndexError] out of range. *)
Inductive indexed (A : Type) : Type :=
| Value (a : A)
| IndexError.

Arguments Value {A} a.
Arguments IndexError {A}.

Definition list_getitem {A} (l : list A) (i : nat) : indexed A :=
  match nth_error l i with
  | Some x => Value x
  | None => IndexError
  end.

Definition str_eq_dec : forall a b : str, {a = b} + {a <> b} :=
  list_eq_dec N.eq_dec.

(** The number of times [x] is in [l]. *)
Definition occurrences (x : str) (l : list str) : nat :=
  count_occ str_eq_dec l x.

(** No string is twice in [l]. *)
Fixpoint nodupb (l : list str) : bool :=
  match l with
  | [] => true
  | x :: r => negb (list_contains x r) && nodupb r
  end.

End PyMore.

Module Phrases.

Import Py PyMore SmartQueryHandler.

(** The phrase step 7 appends for a price term. *)
Definition price_phrase (price_term : str) : str :=
  if str_eqb price_term (py "cheap") then py "low cost affordable budget"
  else if str_eqb price_term (py "expensive") then py "high cost premium"
  else py "price rate cost".

(** The phrase step 9 appends for an intent, if any. *)
Definition intent_phrase (intent : str) : list str :=
  if str_eqb intent (py "cheapest") then [py "minimum lowest affordable"]
  else if str_eqb intent (py "largest") then [py "maximum biggest"]
  else if str_eqb intent (py "comparison")
  then [py "compare different options"]
  else [].

(** The roots of a category in table order. *)
Definition roots_in_table (roots : list str) : list str :=
  map fst
    (filter (fun '(root_word, _) => list_contains root_word roots)
            semantic_synonyms).

(** What steps 6 to 10 append when every concept is detected. *)
Definition every_context_phrase : list str :=
  property_labels (roots_in_table property_roots)
  ++ map price_phrase (roots_in_table price_roots)
  ++ [py "available plots land"]
  ++ flat_map intent_phrase (keys intent_patterns)
  ++ [py "MIDC Industrial Area"].

(** The offices of the two location tables. *)
Definition office_pool : list str :=
  map snd region_mappings ++ map snd area_to_ro_mappings.

End Phrases.

(* ================================================================== *)
(** * What a spelling correction is *)
(* ================================================================== *)
(** Stated from the description of the corrector, to compare
    [_handle_spelling_mistakes] with. *)

Module Correction.

Import Py SmartQueryHandler.

(** [after] is [before] with the occurrences of [variation] replaced by
    [correct_word]: [before] is a row of pieces with the variant between
    each two of them, no piece holds the variant, and [after] is the same
    row of pieces with the canonical spelling between them instead. *)
Definition replaces_all (variation correct_word before after : str)
  : Prop :=
  exists pieces : list str,
    before = join variation pieces
    /\ after = join correct_word pieces
    /\ Forall (fun piece => contains variation piece = false) pieces.

(** The passes over a text, one for each pair of the table in its order.
    The pass of a variant that occurs in the lower-cased query and differs
    from its canonical spelling replaces the occurrences of the variant in
    the text the earlier passes left; the pass of any other pair leaves the
    text as it is. *)
Inductive corrected_by (query_lower : str)
  : list (str * str) -> str -> str -> Prop :=
| corrected_end (text : str) : corrected_by query_lower [] text text
| corrected_pass (correct_word variation : str) (steps : list (str * str))
    (before after final : str) :
    contains variation query_lower = true ->
    variation <> correct_word ->
    replaces_all variation correct_word before after ->
    corrected_by query_lower steps after final ->
    corrected_by query_lower ((correct_word, variation) :: steps)
                 before final
| corrected_skip (correct_word variation : str) (steps : list (str * str))
    (text final : str) :
    contains variation query_lower = false \/ variation = correct_word ->
    corrected_by query_lower steps text final ->
    corrected_by query_lower ((correct_word, variation) :: steps)
                 text final.

End Correction.

(* ================================================================== *)
(** * The handler with its console output *)
(* ================================================================== *)
(** [improve_query] and [_handle_spelling_mistakes] report what they do
    with [print].  A [print] encodes its line for the console and raises
    [UnicodeEncodeError] when the encoding has no code for one of the code
    points.  The definitions above give the value the two methods return;
    here they are with their output and with what they can raise. *)

Module Console.

Import Py SmartQueryHandler.

Local Open Scope N_scope.

(** What a call can raise. *)
Inductive raised : Type :=
| KeyErrorRaised (key : str)
| UnicodeEncodeError (line : str).

(** How a call ends, and the lines on the console then. *)
Inductive run (A : Type) : Type :=
| Returns (a : A) (console : list str)
| Raises (e : raised) (console : list str).

Definition io (A : Type) : Type := list str -> run A.

Definition ret {A} (a : A) : io A := fun console => Returns a console.

Definition bind {A B} (m : io A) (k : A -> io B) : io B :=
  fun console =>
    match m console with
    | Returns a console' => k a console'
    | Raises _ e console' => Raises B e console'
    end.

Notation "x <~ m ;; k" := (bind m (fun x => k))
  (at level 61, m at next level, right associativity).
Notation "m ;;; k" := (bind m (fun _ => k))
  (at level 61, right associativity).
Notation "' pat <~ m ;; k" :=
  (bind m (fun x => match x with pat => k end))
  (at level 61, pat pattern, m at next level, right associativity).

(** A lookup that may raise [KeyError]. *)
Definition lift {A} (m : exc A) : io A :=
  fun console =>
    match m with
    | Ok a => Returns a console
    | KeyError key => Raises A (KeyErrorRaised key) console
    end.

Fixpoint for_each {A S} (body : S -> A -> io S) (l : list A) (s : S)
  : io S :=
  match l with
  | [] => ret s
  | x :: r => bind (body s x) (for_each body r)
  end.


(** [repr] of a string of letters, digits and underscores, as the roots of
    the synonym table and the names of the intents are: the string between
    single quotes. *)
Definition repr_word (s : str) : str := py "'" ++ s ++ py "'".

(** [repr] of a list of such strings. *)
Definition repr_list (l : list str) : str :=
  py "[" ++ join (py ", ") (map repr_word l) ++ py "]".

(** [repr] of the dict [_extract_root_concepts] returns. *)
Definition repr_concepts (c : concepts) : str :=
  py "{'locations': " ++ repr_list (locations c)
  ++ py ", 'property_types': " ++ repr_list (property_types c)
  ++ py ", 'price_related': " ++ repr_list (price_related c)
  ++ py ", 'availability_related': " ++ repr_list (availability_related c)
  ++ py ", 'intents': " ++ repr_list (intents c)
  ++ py "}".

Section WithConsole.

Variable U : unicode_db.

(** The code points the encoding of the console has a code for. *)
Variable encodes : N -> bool.

(** [print(line)]: the line and the end of line are encoded and written. *)
Definition print (line : str) : io unit :=
  fun console =>
    if forallb encodes (line ++ [10])
    then Returns tt (console ++ [line])
    else Raises unit (UnicodeEncodeError line) console.

Definition _handle_spelling_mistakes (query : str) : io str :=
  let query_lower := lower U query in
  for_each
    (fun corrected_query '(correct_word, variations) =>
       for_each
         (fun corrected_query variation =>
            if contains variation query_lower
               && negb (str_eqb variation correct_word)
            then
              let corrected_query :=
                replace corrected_query variation correct_word in
              print (py "🔧 Corrected spelling: '" ++ variation
                          ++ py "' -> '" ++ correct_word ++ py "'") ;;;
              ret corrected_query
            else ret corrected_query)
         variations corrected_query)
    spelling_variations query.

(** Step 5: the office of every found location, unless already listed. *)
Definition add_ro_context (locs : list (str * str))
    (improvements : list str) : io (list str) :=
  for_each
    (fun imps '(location, ro) =>
       if list_contains ro imps then ret imps
       else
         let imps := imps ++ [ro] in
         print (py "📍 Found location: '" ++ location
                ++ py "' -> '" ++ ro ++ py "'") ;;;
         ret imps)
    locs improvements.

(** Step 6: the category of every detected property type; the category is
    looked up once for the list and once for the line. *)
Definition add_property_context (prop_types : list str)
    (improvements : list str) : io (list str) :=
  for_each
    (fun imps prop_type =>
       if dict_contains property_mappings prop_type
       then
         label <~ lift (getitem property_mappings prop_type) ;;
         let imps := imps ++ [label] in
         label <~ lift (getitem property_mappings prop_type) ;;
         print (py "🏢 Found property type: '" ++ prop_type
                ++ py "' -> '" ++ label ++ py "'") ;;;
         ret imps
       else ret imps)
    prop_types improvements.

(** Step 7: a phrase for every detected price term. *)
Definition add_price_context (price_terms : list str)
    (improvements : list str) : io (list str) :=
  for_each
    (fun imps price_term =>
       let imps :=
         if str_eqb price_term (py "cheap")
         then imps ++ [py "low cost affordable budget"]
         else if str_eqb price_term (py "expensive")
         then imps ++ [py "high cost premium"]
         else imps ++ [py "price rate cost"] in
       print (py "💰 Found price term: '" ++ price_term ++ py "'") ;;;
       ret imps)
    price_terms improvements.

(** Step 8: availability. *)
Definition add_availability_context (avail : list str)
    (improvements : list str) : io (list str) :=
  match avail with
  | [] => ret improvements
  | _ =>
    let imps := improvements ++ [py "available plots land"] in
    print (py "📋 Added availability context") ;;;
    ret imps
  end.

(** Step 9: a phrase for three of the intents. *)
Definition add_intent_context (intents : list str)
    (improvements : list str) : io (list str) :=
  for_each
    (fun imps intent =>
       let imps :=
         if str_eqb intent (py "cheapest")
         then imps ++ [py "minimum lowest affordable"]
         else if str_eqb intent (py "largest")
         then imps ++ [py "maximum biggest"]
         else if str_eqb intent (py "comparison")
         then imps ++ [py "compare different options"]
         else imps in
       print (py "🎯 Found intent: '" ++ intent ++ py "'") ;;;
       ret imps)
    intents improvements.

(** Step 10: the MIDC context. *)
Definition add_midc_context (c : concepts) (improvements : list str)
  : io (list str) :=
  if midc_relevant c
  then
    let imps := improvements ++ [py "MIDC Industrial Area"] in
    print (py "🏭 Added MIDC context") ;;;
    ret imps
  else ret improvements.

(** Step 11: the query and the improvements put together. *)
Definition combine (corrected_query : str) (improvements : list str)
  : io str :=
  match improvements with
  | [] =>
    let improved_query := corrected_query in
    print (py "ℹ️ No enhancements needed: '" ++ improved_query
           ++ py "'") ;;;
    ret improved_query
  | _ =>
    let improved_query :=
      corrected_query ++ py " " ++ join (py " ") improvements in
    print (py "🚀 Enhanced query: '" ++ improved_query ++ py "'") ;;;
    ret improved_query
  end.

Definition improve_query (query : str) : io str :=
  print (py "🔍 Original query: '" ++ query ++ py "'") ;;;
  (* Step 1 *)
  let concepts := _extract_root_concepts U query in
  print (py "🧠 Detected concepts: " ++ repr_concepts concepts) ;;;
  (* Step 2 *)
  '(mixed_query, _) <~ lift (_handle_mixed_language U query) ;;
  (if str_eqb mixed_query query then ret tt
   else print (py "🌐 Semantic processing: '" ++ mixed_query
               ++ py "'")) ;;;
  (* Step 3 *)
  corrected_query <~ _handle_spelling_mistakes mixed_query ;;
  (if str_eqb corrected_query mixed_query then ret tt
   else print (py "✅ Corrected query: '" ++ corrected_query
               ++ py "'")) ;;;
  (* Step 4 *)
  let locations := _extract_locations U corrected_query in
  let improvements := [] in
  (* Steps 5 to 10 *)
  improvements <~ add_ro_context locations improvements ;;
  improvements <~ add_property_context (property_types concepts)
                                       improvements ;;
  improvements <~ add_price_context (price_related concepts)
                                    improvements ;;
  improvements <~ add_availability_context (availability_related concepts)
                                           improvements ;;
  improvements <~ add_intent_context (intents concepts) improvements ;;
  improvements <~ add_midc_context concepts improvements ;;
  (* Step 11 *)
  combine corrected_query improvements.

(** *** Notions to state what a run writes *)





End WithConsole.

End Console.

(* ================================================================== *)
(** * The retrieval service ([langchain_final_rag.py])

    Of [LangChainFinalRAG] the two methods that work on the question and on
    the number of retrieved documents alone. *)
(* ================================================================== *)

Module LangChainFinalRAG.

Import Py PyMore.

Definition greetings : list str :=
  [py "hey"; py "hello"; py "hi"; py "good morning"; py "good afternoon";
   py "good evening"].

Definition casual_questions : list str :=
  [py "how are you"; py "how are you doing"; py "what's up";
   py "how do you do"].

(** The two lines that compute [after_greeting]. *)
Definition after_greeting (query_lower greeting : str) : indexed str :=
  match list_getitem (split_once query_lower greeting) 1 with
  | Value after =>
    let after := strip after in
    Value (strip (replace (replace (replace after (py ",") [])
                                   (py ".") [])
                          (py "!") []))
  | IndexError => IndexError
  end.

(** [_is_greeting].  Only the first listed greeting found in the question
    is looked at; a question with a casual phrase is a greeting anyway. *)
Definition _is_greeting (U : unicode_db) (query : str) : indexed bool :=
  let query_lower := strip (lower U query) in
  let casual :=
    existsb (fun casual => contains casual query_lower) casual_questions in
  if existsb (fun greeting => contains greeting query_lower) greetings
  then match find (fun greeting => contains greeting query_lower)
                  greetings with
       | Some greeting =>
         match after_greeting query_lower greeting with
         | Value after =>
           if (List.length after <? 3)%nat then Value true
           else Value casual
         | IndexError => IndexError
         end
       | None => Value casual
       end
  else Value casual.

(** [_calculate_confidence].  The result is one of the literals 0.3, 0.5,
    0.7 and 0.9, given here in tenths. *)
Definition _calculate_confidence {A} (source_documents : list A) : N :=
  match source_documents with
  | [] => 3
  | _ =>
    let num_sources := List.length source_documents in
    if (5 <=? num_sources)%nat then 9
    else if (3 <=? num_sources)%nat then 7
    else if (1 <=? num_sources)%nat then 5
    else 3
  end%N.

End LangChainFinalRAG.

(* ================================================================== *)
(** * The chat endpoint ([main.py])

    The services behind the endpoint (the retrieval service, the clock, the
    response model) are parameters: each reads and changes a world [W] and
    returns a value or raises an exception.  [HTTPException] is an
    [Exception], so the [except Exception] clause of [chat] catches the one
    raised in its own [try] block. *)
(* ================================================================== *)

Module Main.

Import Py PyMore.

Section Chat.

(** What the services can raise besides [HTTPException]: the other
    exceptions that derive from [Exception], and those that do not
    ([KeyboardInterrupt], [SystemExit], a cancelled task). *)
Variables (library_error base_error : Type).

Inductive exception : Type :=
| HTTPException (status_code : N) (detail : str)
| LibraryError (e : library_error)
| BaseError (e : base_error).

Inductive raises (A : Type) : Type :=
| Return (a : A)
| Raise (e : exception).

Variables (W result response : Type).

(** [str(e)] *)
Variable exception_str : exception -> str.
(** [rag_service.query(message)] *)
Variable query : str -> W -> raises result * W.
(** [result['timestamp'] = datetime.now().isoformat()] *)
Variable add_timestamp : result -> W -> raises result * W.
(** the [ChatResponse] built from the result *)
Variable chat_response : result -> W -> raises response * W.

(** The body of the [try] block. *)
Definition chat_try (message : str) (w : W) : raises response * W :=
  match strip message with
  | [] => (Raise _ (HTTPException 400 (py "Message cannot be empty")), w)
  | _ =>
    match query message w with
    | (Return r, w1) =>
      match add_timestamp r w1 with
      | (Return r', w2) => chat_response r' w2
      | (Raise _ e, w2) => (Raise _ e, w2)
      end
    | (Raise _ e, w1) => (Raise _ e, w1)
    end
  end.

(** [except Exception as e] takes the exceptions that derive from
    [Exception], the [HTTPException] of the block itself included; any
    other goes on to the caller. *)
Definition chat (message : str) (w : W) : raises response * W :=
  match chat_try message w with
  | (Return r, w') => (Return r, w')
  | (Raise _ (BaseError b), w') => (Raise _ (BaseError b), w')
  | (Raise _ e, w') =>
    (Raise _ (HTTPException 500
                (py "Error processing chat message: " ++ exception_str e)),
     w')
  end.

(** One of the three services raises [e] on this message, and leaves the
    world [w']. *)
Definition service_raises (message : str) (w : W) (e : exception) (w' : W)
  : Prop :=
  query message w = (Raise _ e, w')
  \/ exists r w1,
       query message w = (Return r, w1)
       /\ (add_timestamp r w1 = (Raise _ e, w')
           \/ exists r' w2,
                add_timestamp r w1 = (Return r', w2)
                /\ chat_response r' w2 = (Raise _ e, w')).

End Chat.

End Main.

(* ================================================================== *)
(** * The scraper ([tabular_scraper.py])

    A page is given by what the HTML parser answers to the queries of the
    scraper.  A row is the list of the stripped texts of its [td] cells.
    The frame that [scrape_midc_land_bank] returns is given by the rows it
    is built from: the empty frame by no rows. *)
(* ================================================================== *)

Module TabularScraper.

Import Py.

Definition row := list str.

Record table : Type := {
  (** [table.get('id')] *)
  table_id : option str;
  (** the [tr] rows of [table.find('tbody')], if there is a [tbody] *)
  tbody_rows : option (list row);
  (** [table.find_all('tr')] *)
  tr_rows : list row
}.

Record page : Type := {
  (** [soup.find('table', id='myTableforPlotUnderAllotmentList')] *)
  main_table : option table;
  (** [soup.find_all('table')] *)
  all_tables : list table
}.

(** A request gives a page or raises (the request itself,
    [raise_for_status] or the parser). *)
Inductive response : Type :=
| Page (p : page)
| RequestFailed.

Fixpoint row_eqb (a b : row) : bool :=
  match a, b with
  | [], [] => true
  | x :: a', y :: b' => str_eqb x y && row_eqb a' b'
  | _, _ => false
  end.

(** The rows with five cells or more, cut to their first five cells. *)
Definition first_five (rows : list row) : list row :=
  map (firstn 5) (filter (fun cells => (5 <=? List.length cells)%nat) rows).

(** A record of the frame: five fields. *)
Definition five_cells (r : row) : Prop := List.length r = 5%nat.

Definition is_alternative (t : table) : bool :=
  match table_id t with
  | Some i =>
    match i with [] => false | _ => true end && contains (py "Table") i
  | None => false
  end.

(** [plots_data] for one page. *)
Definition extract_plots (p : page) : list row :=
  match main_table p with
  | Some t =>
    match tbody_rows t with
    | Some rows => first_five rows
    | None => first_five (tl (tr_rows t))
    end
  | None =>
    match find is_alternative (all_tables p) with
    | Some t => first_five (tl (tr_rows t))
    | None => []
    end
  end.

Section Scrape.

(** The answer to the request for a page of the tab; every page is
    requested at most once. *)
Variable fetch : nat -> response.
Variable max_pages : option Z.

(** [max_pages and page >= max_pages] *)
Definition max_pages_reached (page : nat) : bool :=
  match max_pages with
  | None => false
  | Some m => negb (m =? 0)%Z && (m <=? Z.of_nat page)%Z
  end.

(** The test named "duplicate data": the first record of the page against
    the last record of [all_plots_data], to which the page has been added
    already. *)
Definition duplicate_detected (page : nat) (plots_data all_plots_data : list row)
  : bool :=
  (1 <? page)%nat && (0 <? List.length plots_data)%nat
  && (List.length plots_data <=? List.length all_plots_data)%nat
  && let current_first_record := hd [] plots_data in
     let previous_last_record := last all_plots_data [] in
     match current_first_record with [] => false | _ => true end
     && match previous_last_record with [] => false | _ => true end
     && row_eqb current_first_record previous_last_record.

(** How the [while True] loop ends. *)
Inductive loop_exit : Type :=
| Finished (all_plots_data : list row) (page : nat)
| Failed.

(** The loop, with [fuel] bounding the number of requests. *)
Fixpoint scrape_loop (fuel page : nat) (all_plots_data : list row)
  : option loop_exit :=
  match fuel with
  | O => None
  | S fuel' =>
    match fetch page with
    | RequestFailed => Some Failed
    | Page p =>
      let plots_data := extract_plots p in
      match plots_data with
      | [] => Some (Finished all_plots_data page)
      | _ =>
        let all_plots_data := all_plots_data ++ plots_data in
        if max_pages_reached page
        then Some (Finished all_plots_data page)
        else if (List.length plots_data <? 10)%nat
        then Some (Finished all_plots_data page)
        else if duplicate_detected page plots_data all_plots_data
        then Some (Finished all_plots_data page)
        else if (1181 <=? List.length all_plots_data)%nat
        then Some (Finished all_plots_data page)
        else scrape_loop fuel' (S page) all_plots_data
      end
    end
  end.

(** The records the function collects ([all_plots_data]), of which it
    makes the frame it returns; both [except] clauses return the empty
    frame. *)
Definition scrape_midc_land_bank (fuel : nat) : option (list row) :=
  match scrape_loop fuel 1 [] with
  | Some (Finished all_plots_data _) => Some all_plots_data
  | Some Failed => Some []
  | None => None
  end.

End Scrape.

(** ** The frame

    What the function returns is the frame made of the collected records. *)

(** [tab_names.get(tab_number, f"Tab {tab_number}")] *)
Definition tab_name (tab_number : Z) : str :=
  if (tab_number =? 1)%Z then py "Industrial"
  else if (tab_number =? 2)%Z then py "Commercial"
  else if (tab_number =? 3)%Z then py "Residential"
  else py "Tab " ++ py (NilZero.string_of_int (Z.to_int tab_number)).

Section Frame.

(** The numbers of a numeric column, [NaN] among them, and
    [pd.to_numeric(..., errors='coerce')] on one cell: the number the text
    denotes, [NaN] for a text that denotes none and for a missing cell. *)
Variable number : Type.
Variable to_numeric : option str -> number.

(** A record of the frame: the five columns of the table and the column
    added for the property type. *)
Record record : Type := {
  Sr_No : number;
  Regional_Office : option str;
  Industrial_Area : option str;
  Plot_No : option str;
  Area_sq_meter : number;
  Property_Type : str
}.

(** The number of columns the rows need: the length of the longest row. *)
Definition width (rows : list row) : nat :=
  fold_right Nat.max 0%nat (map (@List.length str) rows).

(** A row in the frame; [pd.DataFrame] fills a shorter row with [None]. *)
Definition record_of (tab_name : str) (cells : row) : record :=
  {| Sr_No := to_numeric (nth_error cells 0);
     Regional_Office := nth_error cells 1;
     Industrial_Area := nth_error cells 2;
     Plot_No := nth_error cells 3;
     Area_sq_meter := to_numeric (nth_error cells 4);
     Property_Type := tab_name |}.

(** The frame of [all_plots_data]: empty for no record; [pd.DataFrame]
    raises when the rows need another number of columns than the five
    named, and [except Exception] returns the empty frame then. *)
Definition data_frame (tab_name : str) (all_plots_data : list row)
  : list record :=
  match all_plots_data with
  | [] => []
  | _ => if (width all_plots_data =? 5)%nat
         then map (record_of tab_name) all_plots_data
         else []
  end.

(** The frame [scrape_midc_land_bank] returns for a tab. *)
Definition returned_frame (fetch : nat -> response) (max_pages : option Z)
    (tab_number : Z) (fuel : nat) : option (list record) :=
  option_map (data_frame (tab_name tab_number))
             (scrape_midc_land_bank fetch max_pages fuel).

(** [scrape_all_property_types]: the three tabs in turn; the frames that
    are not empty are collected and concatenated.  [fetch tab page] is the
    answer to the request for a page of a tab. *)
Definition scrape_all_property_types (fetch : Z -> nat -> response)
    (max_pages : option Z) (fuel : nat) : option (list record) :=
  option_map (@List.concat record)
    (fold_left
       (fun all_dataframes tab_num =>
          match all_dataframes,
                returned_frame (fetch tab_num) max_pages tab_num fuel with
          | Some dfs, Some df =>
            Some (match df with [] => dfs | _ => dfs ++ [df] end)
          | _, _ => None
          end)
       [1; 2; 3]%Z (Some [])).

(** The record made of five cells and a property type. *)
Definition made_of (property_type : str) (cells : row) (r : record)
  : Prop :=
  exists sr_no regional_office industrial_area plot_no area,
    cells = [sr_no; regional_office; industrial_area; plot_no; area]
    /\ r = {| Sr_No := to_numeric (Some sr_no);
              Regional_Office := Some regional_office;
              Industrial_Area := Some industrial_area;
              Plot_No := Some plot_no;
              Area_sq_meter := to_numeric (Some area);
              Property_Type := property_type |}.

End Frame.

End TabularScraper.

(* ================================================================== *)
(** * Facts about the runtime model *)
(* ================================================================== *)

Module PyFacts.

Import Py.

Local Open Scope N_scope.

(** ** Equality, prefixes and substrings *)

Lemma str_eqb_eq (a b : str) : str_eqb a b = true <-> a = b.
Proof.
  revert b; induction a as [|x a IH]; intros [|y b]; simpl;
    try (split; [discriminate | discriminate]); try tauto.
  rewrite andb_true_iff, N.eqb_eq, IH.
  split; [intros [-> ->]; reflexivity | intros E; inversion E; auto].
Qed.

Lemma str_eqb_refl (a : str) : str_eqb a a = true.
Proof. apply str_eqb_eq; reflexivity. Qed.

Lemma str_eqb_neq (a b : str) : str_eqb a b = false <-> a <> b.
Proof.
  rewrite <- str_eqb_eq; destruct (str_eqb a b); split; congruence.
Qed.

Lemma list_contains_In (x : str) (l : list str) :
  list_contains x l = true <-> In x l.
Proof.
  unfold list_contains; rewrite existsb_exists; split.
  - intros [y [Hy E]]; apply str_eqb_eq in E; subst; assumption.
  - intros H; exists x; split; [assumption | apply str_eqb_refl].
Qed.

Lemma startswith_iff (p s : str) :
  startswith p s = true <-> exists r, s = p ++ r.
Proof.
  revert s; induction p as [|a p IH]; intros s; simpl.
  - split; [intros _; exists s; reflexivity | reflexivity].
  - destruct s as [|b s].
    + split; [discriminate | intros [r E]; discriminate].
    + rewrite andb_true_iff, N.eqb_eq, IH; split.
      * intros [-> [r ->]]; exists r; reflexivity.
      * intros [r E]; inversion E; subst; split; [reflexivity | eauto].
Qed.

Lemma startswith_app (p r : str) : startswith p (p ++ r) = true.
Proof. apply startswith_iff; eauto. Qed.

Lemma contains_iff (p s : str) :
  contains p s = true <-> exists a b, s = a ++ p ++ b.
Proof.
  induction s as [|c s IH].
  - simpl; rewrite orb_false_r, startswith_iff; split.
    + intros [r E]; exists [], r; assumption.
    + intros [a [b E]]; destruct a; [eauto | discriminate].
  - simpl; rewrite orb_true_iff, IH, startswith_iff; split.
    + intros [[r E] | [a [b E]]].
      * exists [], r; assumption.
      * exists (c :: a), b; rewrite E; reflexivity.
    + intros [[|x a] [b E]].
      * left; eauto.
      * right; inversion E; eauto.
Qed.

Lemma contains_within (p a y b : str) :
  contains p y = true -> contains p (a ++ y ++ b) = true.
Proof.
  rewrite !contains_iff; intros [a' [b' ->]].
  exists (a ++ a'), (b' ++ b); rewrite <- !app_assoc; reflexivity.
Qed.

Lemma contains_startswith (p s : str) :
  startswith p s = true -> contains p s = true.
Proof. destruct s; simpl; intros ->; reflexivity. Qed.

Lemma contains_cons (p : str) (c : N) (s : str) :
  contains p (c :: s) = startswith p (c :: s) || contains p s.
Proof. reflexivity. Qed.

Lemma contains_tail_false (p : str) (c : N) (s : str) :
  contains p (c :: s) = false -> contains p s = false.
Proof. rewrite contains_cons; apply orb_false_elim. Qed.

Lemma contains_skipn_false (p : str) (n : nat) (s : str) :
  contains p s = false -> contains p (skipn n s) = false.
Proof.
  revert s; induction n as [|n IH]; intros s H; [assumption|].
  destruct s as [|c s]; [assumption|].
  simpl; apply IH; eapply contains_tail_false; eassumption.
Qed.

(** A prefix of a concatenation starts with, or is started by, its first
    part. *)
Lemma startswith_app_comparable (p a b : str) :
  startswith p (a ++ b) = true ->
  startswith p a = true \/ startswith a p = true.
Proof.
  revert a; induction p as [|x p IH]; intros a H; [left; reflexivity|].
  destruct a as [|y a]; [right; reflexivity|].
  simpl in *; apply andb_true_iff in H; destruct H as [E H].
  rewrite E; apply N.eqb_eq in E; subst y; rewrite N.eqb_refl; simpl.
  apply IH; assumption.
Qed.

(** ** Dicts and loops *)

Lemma getitem_checked {V} (d : dict V) (k : str) :
  dict_contains d k = true -> exists v, getitem d k = Ok v.
Proof.
  unfold dict_contains, getitem; destruct (get d k); [eauto | discriminate].
Qed.

Lemma fold_left_id {A B} (f : A -> B -> A) (l : list B) (a : A) :
  (forall x y, In y l -> f x y = x) -> fold_left f l a = a.
Proof.
  revert a; induction l as [|y l IH]; intros a H; simpl; [reflexivity|].
  rewrite H by (left; reflexivity); apply IH; intros; apply H; right;
    assumption.
Qed.

Lemma fold_left_invariant {A B} (P : A -> Prop) (f : A -> B -> A)
    (l : list B) (a : A) :
  P a -> (forall x y, In y l -> P x -> P (f x y)) -> P (fold_left f l a).
Proof.
  revert a; induction l as [|y l IH]; intros a Ha H; simpl; [assumption|].
  apply IH; [apply H; [left; reflexivity | assumption]|].
  intros; apply H; [right|]; assumption.
Qed.

Lemma filter_nil {A} (p : A -> bool) (l : list A) :
  (forall x, In x l -> p x = false) -> filter p l = [].
Proof.
  induction l as [|x l IH]; intros H; simpl; [reflexivity|].
  rewrite (H x (or_introl eq_refl)); apply IH; intros; apply H; right;
    assumption.
Qed.

Lemma find_none {A} (p : A -> bool) (l : list A) :
  (forall x, In x l -> p x = false) -> find p l = None.
Proof.
  induction l as [|x l IH]; intros H; simpl; [reflexivity|].
  rewrite (H x (or_introl eq_refl)); apply IH; intros; apply H; right;
    assumption.
Qed.

Lemma flat_map_nil {A B} (f : A -> list B) (l : list A) :
  (forall x, In x l -> f x = []) -> flat_map f l = [].
Proof.
  induction l as [|x l IH]; intros H; simpl; [reflexivity|].
  rewrite (H x (or_introl eq_refl)); apply IH; intros; apply H; right;
    assumption.
Qed.

Lemma get_none {V} (d : dict V) (k : str) :
  dict_contains d k = false -> get d k = None.
Proof.
  unfold dict_contains; destruct (get d k); [discriminate | reflexivity].
Qed.

(** ** [split] and [join] *)

Lemma split_go_token (w cur rest : str) :
  forallb (fun c => negb (isspace c)) w = true ->
  split_go cur (w ++ rest) = split_go (cur ++ w) rest.
Proof.
  revert cur; induction w as [|c w IH]; intros cur H; simpl.
  - rewrite app_nil_r; reflexivity.
  - simpl in H; apply andb_true_iff in H; destruct H as [Hc Hw].
    apply negb_true_iff in Hc; rewrite Hc, IH by assumption.
    rewrite <- app_assoc; reflexivity.
Qed.

(** Tokens joined by single spaces are split into the same tokens. *)
Lemma split_join_tokens (ws : list str) :
  forallb is_token ws = true -> split (join [32] ws) = ws.
Proof.
  unfold split; induction ws as [|x ws IH]; intros H; [reflexivity|].
  cbn [forallb] in H; apply andb_true_iff in H; destruct H as [Hx Hws].
  unfold is_token in Hx; apply andb_true_iff in Hx; destruct Hx as [Hne Hx].
  destruct ws as [|y ws].
  - cbn [join]; rewrite <- (app_nil_r x) at 1.
    rewrite split_go_token by assumption; cbn [app split_go].
    destruct x; [discriminate | reflexivity].
  - change (join [32] (x :: y :: ws)) with (x ++ 32 :: join [32] (y :: ws)).
    rewrite split_go_token by assumption; cbn [app].
    change (split_go x (32 :: join [32] (y :: ws)))
      with (match x with
            | [] => split_go [] (join [32] (y :: ws))
            | _ => x :: split_go [] (join [32] (y :: ws))
            end).
    rewrite (IH Hws); destruct x; [discriminate | reflexivity].
Qed.

(** ** [replace] *)

Section ReplaceFacts.

Variables old new : str.

Lemma replace_go_skip (k : nat) (s : str) :
  replace_go old new k s = replace_go old new 0 (skipn k s).
Proof.
  revert k; induction s as [|c s IH]; intros [|k]; try reflexivity.
  simpl skipn; rewrite <- IH; reflexivity.
Qed.

Lemma replace_go_match (c : N) (r : str) :
  startswith old (c :: r) = true ->
  replace_go old new 0 (c :: r)
  = new ++ replace_go old new 0 (skipn (List.length old - 1) r).
Proof.
  intros H; cbn [replace_go]; rewrite H, replace_go_skip; reflexivity.
Qed.

Lemma replace_go_copy (c : N) (r : str) :
  startswith old (c :: r) = false ->
  replace_go old new 0 (c :: r) = c :: replace_go old new 0 r.
Proof. intros H; cbn [replace_go]; rewrite H; reflexivity. Qed.

(** Where [w] starts in the output at a scan point, it starts in the input
    and [old] does not, provided no suffix of [w] is comparable with the
    inserted word. *)
Lemma startswith_replace_go (w t : str) :
  w <> [] ->
  forallb (fun w' => negb (comparable w' new)) (tails w) = true ->
  startswith w (replace_go old new 0 t) = true ->
  startswith w t = true /\ startswith old t = false.
Proof.
  revert t; induction w as [|a w IH]; intros t Hne Hb H; [congruence|].
  cbn [tails forallb] in Hb; apply andb_true_iff in Hb.
  destruct Hb as [Ha Hb]; apply negb_true_iff in Ha.
  destruct t as [|c r]; [discriminate H|].
  destruct (startswith old (c :: r)) eqn:Eo.
  - rewrite (@replace_go_match c r Eo) in H.
    apply startswith_app_comparable in H.
    unfold comparable in Ha; apply orb_false_elim in Ha.
    destruct Ha as [Ha1 Ha2], H as [H | H]; congruence.
  - split; [|reflexivity].
    rewrite (@replace_go_copy c r Eo) in H; cbn [startswith] in H |- *.
    apply andb_true_iff in H; destruct H as [Hac H]; rewrite Hac.
    destruct w as [|b w]; [reflexivity|].
    apply IH in H; [apply H | discriminate | exact Hb].
Qed.

Lemma contains_inserted (w n' out : str) :
  forallb (fun c' => negb (comparable c' w)) (tails n') = true ->
  contains w out = false ->
  contains w (n' ++ out) = false.
Proof.
  intros Hb Hout; induction n' as [|x n' IH]; [exact Hout|].
  cbn [tails forallb] in Hb; apply andb_true_iff in Hb.
  destruct Hb as [Hx Hb]; apply negb_true_iff in Hx.
  change ((x :: n') ++ out) with (x :: (n' ++ out)).
  rewrite contains_cons, (IH Hb), orb_false_r.
  destruct (startswith w (x :: n' ++ out)) eqn:E; [|reflexivity].
  change (x :: n' ++ out) with ((x :: n') ++ out) in E.
  apply startswith_app_comparable in E.
  unfold comparable in Hx; apply orb_false_elim in Hx.
  destruct Hx as [Hx1 Hx2], E as [E | E]; congruence.
Qed.

Lemma replace_go_no_occurrence (w : str) (n : nat) (s : str) :
  (List.length s <= n)%nat ->
  w <> [] ->
  border_free w new = true ->
  w = old \/ contains w s = false ->
  contains w (replace_go old new 0 s) = false.
Proof.
  revert s; induction n as [|n IH]; intros s Hlen Hne Hb Hd.
  - destruct s; [|simpl in Hlen; lia].
    destruct w; [congruence | reflexivity].
  - destruct s as [|c r].
    { destruct w; [congruence | reflexivity]. }
    simpl in Hlen.
    pose proof Hb as Hb'; unfold border_free in Hb'.
    apply andb_true_iff in Hb'; destruct Hb' as [Hb1 Hb2].
    destruct (startswith old (c :: r)) eqn:Eo.
    + rewrite (@replace_go_match c r Eo).
      apply contains_inserted; [exact Hb2|].
      apply IH; [| exact Hne | exact Hb |].
      * rewrite length_skipn; lia.
      * destruct Hd as [Hd | Hd]; [left; exact Hd | right].
        apply contains_skipn_false; eapply contains_tail_false; exact Hd.
    + rewrite (@replace_go_copy c r Eo), contains_cons.
      rewrite IH; [| lia | exact Hne | exact Hb |].
      * rewrite orb_false_r.
        destruct (startswith w (c :: replace_go old new 0 r)) eqn:E;
          [|reflexivity].
        rewrite <- (@replace_go_copy c r Eo) in E.
        apply startswith_replace_go in E; [| exact Hne | exact Hb1].
        destruct E as [Ew _], Hd as [Hd | Hd].
        -- subst w; congruence.
        -- apply contains_startswith in Ew; congruence.
      * destruct Hd as [Hd | Hd]; [left; exact Hd | right].
        eapply contains_tail_false; exact Hd.
Qed.

End ReplaceFacts.

(** A replacement leaves no occurrence of [w] when [w] is the replaced
    string or does not occur in the input, and [w] cannot overlap the
    inserted word. *)
Lemma replace_no_occurrence (old new w s : str) :
  old <> [] -> w <> [] ->
  border_free w new = true ->
  w = old \/ contains w s = false ->
  contains w (replace s old new) = false.
Proof.
  intros Ho Hne Hb Hd.
  replace (replace s old new) with (replace_go old new 0 s)
    by (destruct old; [congruence | reflexivity]).
  eapply replace_go_no_occurrence; [apply Nat.le_refl | | |]; assumption.
Qed.

(** ** [lower] *)

Section LowerFacts.

Variable U : unicode_db.

Lemma do_lower_app (whole : str) (i : nat) (a b : str) :
  do_lower U whole i (a ++ b)
  = do_lower U whole i a ++ do_lower U whole (i + List.length a) b.
Proof.
  revert i; induction a as [|c a IH]; intros i; simpl.
  - rewrite Nat.add_0_r; reflexivity.
  - rewrite IH, <- app_assoc, Nat.add_succ_r; reflexivity.
Qed.

Lemma agree_on_ascii_refl (s : str) : Forall2 agree_on_ascii s s.
Proof. induction s; constructor; [left; reflexivity | assumption]. Qed.

(** The context of a string decides between the two small sigmas only, so
    lowering the same text inside two strings agrees on ASCII. *)
Lemma do_lower_agree (w1 w2 : str) (i1 i2 : nat) (s : str) :
  Forall2 agree_on_ascii (do_lower U w1 i1 s) (do_lower U w2 i2 s).
Proof.
  revert i1 i2; induction s as [|c s IH]; intros i1 i2; simpl;
    [constructor|].
  apply Forall2_app; [|apply IH].
  unfold lower_ucs4; destruct (c =? 0x3A3).
  - constructor; [|constructor].
    right; destruct (final_sigma U w1 i1), (final_sigma U w2 i2);
      split; apply N.leb_le; reflexivity.
  - apply agree_on_ascii_refl.
Qed.

Lemma agree_on_ascii_eq (k k' : str) :
  is_ascii k = true -> Forall2 agree_on_ascii k k' -> k' = k.
Proof.
  intros Hk H; induction H as [|a b k k' Hab H IH]; [reflexivity|].
  simpl in Hk; apply andb_true_iff in Hk; destruct Hk as [Ha Hk].
  apply N.ltb_lt in Ha.
  destruct Hab as [-> | [Hge _]]; [rewrite IH by assumption; reflexivity|].
  exfalso; apply (N.lt_irrefl a), (N.lt_le_trans _ 128); assumption.
Qed.

Lemma contains_agree (k x y : str) :
  is_ascii k = true -> Forall2 agree_on_ascii x y ->
  contains k x = true -> contains k y = true.
Proof.
  intros Hk H; rewrite !contains_iff; intros [a [b ->]].
  apply Forall2_app_inv_l in H; destruct H as [a' [y' [_ [H ->]]]].
  apply Forall2_app_inv_l in H; destruct H as [k' [b' [Hkk [_ ->]]]].
  apply agree_on_ascii_eq in Hkk; [subst k'; eauto | assumption].
Qed.

(** An ASCII string found in the lowered query is found in the lowered
    extension of the query. *)
Lemma contains_lower_within (k s q t : str) :
  is_ascii k = true ->
  contains k (lower U q) = true ->
  contains k (lower U (s ++ q ++ t)) = true.
Proof.
  intros Hk H; unfold lower at 1; rewrite !do_lower_app.
  apply contains_within.
  eapply contains_agree; [exact Hk | apply do_lower_agree | exact H].
Qed.

Lemma do_lower_fixed (whole : str) (i : nat) (v : str) :
  is_lower_ascii v = true -> do_lower U whole i v = v.
Proof.
  revert i; induction v as [|c v IH]; intros i H; [reflexivity|].
  simpl in H; apply andb_true_iff in H; destruct H as [Hc Hv].
  apply andb_true_iff in Hc; destruct Hc as [Hlt Hup].
  simpl; rewrite IH by assumption.
  unfold lower_ucs4, ascii_lower; rewrite Hlt.
  apply negb_true_iff in Hup; rewrite Hup.
  replace (c =? 0x3A3) with false; [reflexivity|].
  symmetry; apply N.eqb_neq; intros ->; discriminate.
Qed.

(** Lower-case ASCII text found in a string is found in the lowered
    string. *)
Lemma contains_lower (v t : str) :
  is_lower_ascii v = true ->
  contains v t = true -> contains v (lower U t) = true.
Proof.
  intros Hv; rewrite !contains_iff; intros [a [b E]].
  subst t; unfold lower; rewrite !do_lower_app.
  rewrite (@do_lower_fixed _ _ v Hv); eauto.
Qed.

End LowerFacts.

(** ** The model on small inputs *)

Example py_devanagari : py "पुणे" = [0x092A; 0x0941; 0x0923; 0x0947].
Proof. reflexivity. Qed.

Example lower_ascii (U : unicode_db) :
  lower U (py "RO Pune-I") = py "ro pune-i".
Proof. reflexivity. Qed.

Example split_white_space :
  split [32; 32; 97; 32; 9; 98; 10] = [[97]; [98]].
Proof. reflexivity. Qed.

Example join_words : join (py " ") [py "a"; py "b"; py "c"] = py "a b c".
Proof. reflexivity. Qed.

Example replace_once : replace (py "puneee") (py "punee") (py "pune") = py "punee".
Proof. reflexivity. Qed.

Example replace_empty : replace (py "abc") [] (py "x") = py "xaxbxcx".
Proof. reflexivity. Qed.

Example findall_ro_scan (U : unicode_db) :
  findall_ro U (py "pro  max ro ro x roro ro") = [py "max"; py "ro"; py "ro"].
Proof. reflexivity. Qed.

Example dict_display_repeated_key :
  dict_display [(py "a", 1); (py "b", 2); (py "a", 3)]
  = [(py "a", 3); (py "b", 2)].
Proof. reflexivity. Qed.

End PyFacts.

(* ================================================================== *)
(** * Facts about the methods *)
(* ================================================================== *)

Module HandlerFacts.

Import Py PyFacts SmartQueryHandler.

(** The tables stay folded in the symbolic proofs below. *)
Local Opaque region_mappings area_to_ro_mappings property_mappings
  mixed_language_mappings marathi_transliteration_tokens semantic_synonyms
  intent_patterns spelling_variations.

(** ** The tables *)

(** A repeated key of a dict display takes its last value: "kiti" is
    "how many", not "how much". *)
Example transliteration_repeated_key :
  get marathi_transliteration_tokens (py "kiti") = Some (py "how many")
  /\ List.length (keys marathi_transliteration_tokens) = 91%nat
  /\ List.length (keys region_mappings) = 29%nat.
Proof. vm_compute; repeat split; reflexivity. Qed.

Section Facts.

Variable U : unicode_db.

(** ** The normalizer never raises and works token by token *)

Lemma mixed_language_word_spec (improved : list str) (detected : bool)
    (word : str) :
  mixed_language_word U (improved, detected) word
  = Ok (improved ++ [normalize_token U word],
        detected || is_transliteration U word).
Proof.
  unfold mixed_language_word, normalize_token, is_transliteration,
    fall_through, synonym_root, dict_contains, getitem.
  destruct (get marathi_transliteration_tokens (lower U word)) as [g|].
  - cbn [bind negb andb]; rewrite orb_true_r; reflexivity.
  - cbn [bind negb andb]; rewrite orb_false_r.
    destruct (find _ semantic_synonyms) as [[root syns]|];
      cbn [option_map fst negb andb bind]; [reflexivity|].
    destruct (get mixed_language_mappings (lower U word));
      cbn [bind negb]; reflexivity.
Qed.

Lemma mixed_language_loop (words : list str) (improved : list str)
    (detected : bool) :
  for_each (mixed_language_word U) words (improved, detected)
  = Ok (improved ++ map (normalize_token U) words,
        detected || existsb (is_transliteration U) words).
Proof.
  revert improved detected; induction words as [|w ws IH]; intros;
    cbn [for_each map existsb].
  - rewrite app_nil_r, orb_false_r; reflexivity.
  - rewrite mixed_language_word_spec; cbn [bind]; rewrite IH.
    rewrite <- app_assoc, orb_assoc; reflexivity.
Qed.

Lemma handle_mixed_language_spec (query : str) :
  _handle_mixed_language U query
  = Ok (join (py " ") (map (normalize_token U) (split query)),
        existsb (is_transliteration U) (split query)).
Proof.
  unfold _handle_mixed_language; rewrite mixed_language_loop; reflexivity.
Qed.

(** ** The property-type step never raises *)

Lemma add_property_context_spec (prop_types improvements : list str) :
  add_property_context prop_types improvements
  = Ok (improvements ++ property_labels prop_types).
Proof.
  unfold add_property_context, property_labels.
  revert improvements; induction prop_types as [|p ps IH]; intros;
    cbn [for_each flat_map].
  - rewrite app_nil_r; reflexivity.
  - unfold dict_contains, getitem.
    destruct (get property_mappings p); cbn [bind app]; rewrite IH.
    + rewrite <- app_assoc; reflexivity.
    + reflexivity.
Qed.

(** ** [improve_query] as a pure function *)

Lemma improve_query_body_spec (query : str) :
  exists st,
    improve_query_body U query = Ok st
    /\ l_concepts st = _extract_root_concepts U query
    /\ l_mixed_query st
       = join (py " ") (map (normalize_token U) (split query))
    /\ l_corrected_query st = _handle_spelling_mistakes U (l_mixed_query st)
    /\ l_improvements st
       = add_midc_context (l_concepts st) (context_phrases U query)
    /\ l_improved_query st
       = match l_improvements st with
         | [] => l_corrected_query st
         | _ => l_corrected_query st ++ py " "
                ++ join (py " ") (l_improvements st)
         end.
Proof.
  unfold improve_query_body.
  rewrite handle_mixed_language_spec; cbn [bind].
  rewrite add_property_context_spec; cbn [bind].
  eexists; split; [reflexivity|].
  cbn [l_concepts l_mixed_query l_corrected_query l_improvements
       l_improved_query].
  repeat split; reflexivity.
Qed.

(** ** Where the appended phrases come from *)

Lemma get_In {V} (d : dict V) (k : str) (v : V) :
  get d k = Some v -> In v (map snd d).
Proof.
  induction d as [|[k' v'] d IH]; simpl; [discriminate|].
  destruct (str_eqb k' k); [intros E; inversion E; auto | auto].
Qed.

Lemma extract_locations_values (query loc ro : str) :
  In (loc, ro) (_extract_locations U query) ->
  In ro (map snd region_mappings ++ map snd area_to_ro_mappings).
Proof.
  unfold _extract_locations; rewrite !in_app_iff, in_flat_map.
  intros [H | [H | [w [_ H]]]]; apply filter_In in H; destruct H as [H _];
    apply (in_map snd) in H; cbn [snd] in H.
  - left; exact H.
  - right; exact H.
  - left; exact H.
Qed.

Lemma add_ro_context_In (locs : list (str * str)) (imps : list str)
    (x : str) :
  In x (add_ro_context locs imps) -> In x imps \/ In x (map snd locs).
Proof.
  unfold add_ro_context; revert imps.
  induction locs as [|[loc ro] locs IH]; intros imps;
    cbn [fold_left map snd In]; [auto|].
  intros H; apply IH in H; destruct H as [H | H]; [|auto].
  destruct (list_contains ro imps); [auto|].
  apply in_app_iff in H; cbn [In map snd] in *; tauto.
Qed.

Lemma property_labels_In (prop_types : list str) (x : str) :
  In x (property_labels prop_types) -> In x (map snd property_mappings).
Proof.
  unfold property_labels; rewrite in_flat_map; intros [p [_ H]].
  destruct (get property_mappings p) eqn:E; cbn [In] in H; [|tauto].
  destruct H as [<- | []]; eapply get_In; eassumption.
Qed.

Lemma add_price_context_In (terms imps : list str) (x : str) :
  In x (add_price_context terms imps) ->
  In x imps
  \/ In x [py "low cost affordable budget"; py "high cost premium";
           py "price rate cost"].
Proof.
  unfold add_price_context; revert imps.
  induction terms as [|t terms IH]; intros imps; cbn [fold_left];
    [intros H; left; exact H|].
  intros H; apply IH in H; destruct H as [H | H]; [|right; exact H].
  destruct (str_eqb t _); [|destruct (str_eqb t _)];
    apply in_app_iff in H; destruct H as [H | [<- | []]];
    try (left; exact H); right.
  - left; reflexivity.
  - right; left; reflexivity.
  - right; right; left; reflexivity.
Qed.

Lemma add_availability_context_In (avail imps : list str) (x : str) :
  In x (add_availability_context avail imps) ->
  In x imps \/ x = py "available plots land".
Proof.
  unfold add_availability_context; destruct avail;
    [intros H; left; exact H|].
  intros H; apply in_app_iff in H; destruct H as [H | [<- | []]];
    [left; exact H | right; reflexivity].
Qed.

Lemma add_intent_context_In (its imps : list str) (x : str) :
  In x (add_intent_context its imps) ->
  In x imps
  \/ In x [py "minimum lowest affordable"; py "maximum biggest";
           py "compare different options"].
Proof.
  unfold add_intent_context; revert imps.
  induction its as [|t its IH]; intros imps; cbn [fold_left];
    [intros H; left; exact H|].
  intros H; apply IH in H; destruct H as [H | H]; [|right; exact H].
  destruct (str_eqb t _);
    [|destruct (str_eqb t _); [|destruct (str_eqb t _); [|left; exact H]]];
    apply in_app_iff in H; destruct H as [H | [<- | []]];
    try (left; exact H); right.
  - left; reflexivity.
  - right; left; reflexivity.
  - right; right; left; reflexivity.
Qed.

Lemma context_phrases_pool (query x : str) :
  In x (context_phrases U query) -> In x phrase_pool.
Proof.
  unfold context_phrases, phrase_pool; cbv zeta; intros H.
  rewrite !in_app_iff.
  apply add_intent_context_In in H; destruct H as [H | H].
  2:{ do 3 right; do 4 apply in_cons; exact H. }
  apply add_availability_context_In in H; destruct H as [H | ->].
  2:{ do 3 right; do 3 apply in_cons; left; reflexivity. }
  apply add_price_context_In in H; destruct H as [H | H].
  2:{ do 3 right; destruct H as [<- | [<- | [<- | []]]].
      - left; reflexivity.
      - right; left; reflexivity.
      - right; right; left; reflexivity. }
  apply in_app_iff in H; destruct H as [H | H].
  - apply add_ro_context_In in H; destruct H as [[] | H].
    apply in_map_iff in H; destruct H as [[loc ro] [<- H]].
    apply extract_locations_values in H; apply in_app_iff in H.
    destruct H as [H | H]; [left; exact H | right; left; exact H].
  - apply property_labels_In in H; right; right; left; exact H.
Qed.

(** ** The stages on a query no table matches *)

Lemma normalize_unmatched (query : str) :
  no_token_match U query = true ->
  map (normalize_token U) (split query) = split query.
Proof.
  unfold no_token_match; generalize (split query) as ws.
  induction ws as [|w ws IH]; cbn [forallb map]; intros H; [reflexivity|].
  apply andb_true_iff in H; destruct H as [Hw H].
  rewrite (IH H); f_equal.
  cbv zeta in Hw.
  apply andb_true_iff in Hw; destruct Hw as [Hw H3].
  apply andb_true_iff in Hw; destruct Hw as [H1 H2].
  apply negb_true_iff in H1, H3.
  unfold normalize_token, fall_through, synonym_root.
  rewrite (get_none _ _ H1), (get_none _ _ H3).
  rewrite find_none; [reflexivity|].
  intros [root syns] Hin; rewrite forallb_forall in H2.
  apply negb_true_iff; exact (H2 _ Hin).
Qed.

Lemma spelling_unmatched (text : str) :
  no_spelling_match U text = true ->
  _handle_spelling_mistakes U text = text.
Proof.
  unfold no_spelling_match, _handle_spelling_mistakes; intros H.
  rewrite forallb_forall in H.
  apply fold_left_id; intros cq [correct_word variations] Hin.
  specialize (H _ Hin); cbn beta iota in H; rewrite forallb_forall in H.
  apply fold_left_id; intros cq' v Hv; specialize (H _ Hv).
  unfold spelling_step.
  destruct (str_eqb v correct_word); [rewrite andb_false_r; reflexivity|].
  cbn [orb] in H; apply negb_true_iff in H; rewrite H; reflexivity.
Qed.

Lemma locations_unmatched (text : str) :
  no_location_match U text = true -> _extract_locations U text = [].
Proof.
  unfold no_location_match, _extract_locations, none_occurs, keys.
  intros H; apply andb_true_iff in H; destruct H as [H H3].
  apply andb_true_iff in H; destruct H as [H1 H2].
  rewrite forallb_forall in H1, H2, H3.
  cbv zeta; rewrite !filter_nil, flat_map_nil; [reflexivity| | |].
  - intros w Hw; specialize (H3 _ Hw); rewrite forallb_forall in H3.
    apply filter_nil; intros [city ro] Hin.
    apply negb_true_iff; exact (H3 _ Hin).
  - intros [area ro] Hin; apply negb_true_iff.
    apply (H2 area), in_map_iff; exists (area, ro); split;
      [reflexivity | exact Hin].
  - intros [city ro] Hin; apply negb_true_iff.
    apply (H1 city), in_map_iff; exists (city, ro); split;
      [reflexivity | exact Hin].
Qed.

Lemma extract_roots_unmatched (query_lower : str) (roots before after : list str) :
  forallb (fun '(root_word, synonyms) =>
             negb (list_contains root_word (before ++ roots ++ after))
             || none_occurs synonyms query_lower)
          semantic_synonyms = true ->
  extract_roots query_lower roots = [].
Proof.
  intros H; rewrite forallb_forall in H; unfold extract_roots.
  rewrite filter_nil; [reflexivity|].
  intros [root_word synonyms] Hin; specialize (H _ Hin); cbn beta iota in H.
  destruct (list_contains root_word roots) eqn:Er; [|reflexivity].
  cbn [andb].
  replace (list_contains root_word (before ++ roots ++ after)) with true in H.
  - cbn [negb orb] in H; unfold none_occurs in H.
    destruct (existsb _ synonyms) eqn:Ex; [|reflexivity].
    apply existsb_exists in Ex; destruct Ex as [syn [Hs Hc]].
    rewrite forallb_forall in H; specialize (H _ Hs).
    rewrite Hc in H; discriminate.
  - symmetry; unfold list_contains in *.
    rewrite !existsb_app, Er, orb_true_r; reflexivity.
Qed.

Lemma intents_unmatched (query : str) :
  forallb (fun '(_, patterns) => none_occurs patterns (lower U query))
          intent_patterns = true ->
  _detect_user_intent U query = [].
Proof.
  intros H; rewrite forallb_forall in H; unfold _detect_user_intent.
  rewrite filter_nil; [reflexivity|].
  intros [intent patterns] Hin; specialize (H _ Hin); cbn beta iota in H.
  unfold none_occurs in H; rewrite forallb_forall in H.
  destruct (existsb _ patterns) eqn:Ex; [|reflexivity].
  apply existsb_exists in Ex; destruct Ex as [pat [Hp Hc]].
  specialize (H _ Hp); rewrite Hc in H; discriminate.
Qed.

Lemma concepts_unmatched (query : str) :
  no_concept_match U query = true ->
  _extract_root_concepts U query
  = {| locations := []; property_types := []; price_related := [];
       availability_related := []; intents := [] |}.
Proof.
  unfold no_concept_match, _extract_root_concepts; intros H.
  apply andb_true_iff in H; destruct H as [Hs Hi].
  rewrite (intents_unmatched _ Hi).
  rewrite (@extract_roots_unmatched _ location_roots []
             (property_roots ++ price_roots ++ availability_roots))
    by exact Hs.
  rewrite (@extract_roots_unmatched _ property_roots location_roots
             (price_roots ++ availability_roots)) by exact Hs.
  rewrite (@extract_roots_unmatched _ price_roots
             (location_roots ++ property_roots) availability_roots)
    by (rewrite <- !app_assoc; exact Hs).
  rewrite (@extract_roots_unmatched _ availability_roots
             (location_roots ++ property_roots ++ price_roots) [])
    by (rewrite app_nil_r, <- !app_assoc; exact Hs).
  reflexivity.
Qed.

Lemma improve_query_unmatched (query : str) :
  no_table_match U query = true ->
  improve_query U query = Ok (join (py " ") (split query)).
Proof.
  unfold no_table_match; cbv zeta; intros H.
  apply andb_true_iff in H; destruct H as [H Hc].
  apply andb_true_iff in H; destruct H as [H Hl].
  apply andb_true_iff in H; destruct H as [Ht Hs].
  destruct (improve_query_body_spec query)
    as [st [E [Ec [Em [Eq [Ei Er]]]]]].
  unfold improve_query; rewrite E; cbn [bind]; f_equal.
  rewrite (normalize_unmatched _ Ht) in Em.
  rewrite Em, (spelling_unmatched _ Hs) in Eq.
  assert (Ei' : l_improvements st = []).
  { rewrite Ei, Ec; unfold context_phrases.
    rewrite (concepts_unmatched _ Hc), (normalize_unmatched _ Ht),
      (spelling_unmatched _ Hs), (locations_unmatched _ Hl).
    reflexivity. }
  rewrite Er, Ei', Eq; reflexivity.
Qed.

(** ** The spelling corrector, step by step *)

Lemma spelling_loops_as_steps (query_lower : str)
    (table : list (str * list str)) (text : str) :
  fold_left (fun corrected_query '(correct_word, variations) =>
               fold_left (spelling_step query_lower correct_word)
                         variations corrected_query)
            table text
  = fold_left (fun corrected_query '(correct_word, variation) =>
                 spelling_step query_lower correct_word corrected_query
                               variation)
              (flat_map (fun '(correct_word, variations) =>
                           map (pair correct_word) variations)
                        table)
              text.
Proof.
  revert text; induction table as [|[c vs] table IH]; intros text;
    [reflexivity|].
  cbn [fold_left flat_map]; rewrite fold_left_app, <- IH; f_equal.
  generalize text; induction vs as [|v vs IHv]; intros a; [reflexivity|].
  cbn [map fold_left]; apply IHv.
Qed.

Lemma spelling_as_steps (query : str) :
  _handle_spelling_mistakes U query
  = fold_left (fun corrected_query '(correct_word, variation) =>
                 spelling_step (lower U query) correct_word corrected_query
                               variation)
              spelling_steps query.
Proof. apply spelling_loops_as_steps. Qed.

(** Every step that replaces anything replaces a non-empty variant by one
    of the inserted words. *)
Lemma spelling_steps_sound (c v : str) :
  In (c, v) spelling_steps -> v <> c ->
  v <> [] /\ In c inserted_words.
Proof.
  intros Hin Hne.
  assert (H : forallb (fun '(c, v) =>
                         str_eqb v c
                         || (truthy v && list_contains c inserted_words))
                      spelling_steps = true) by (vm_compute; reflexivity).
  rewrite forallb_forall in H; specialize (H _ Hin); cbn beta iota in H.
  apply str_eqb_neq in Hne; rewrite Hne in H; cbn [orb] in H.
  apply andb_true_iff in H; destruct H as [Hv Hc].
  split; [intros ->; discriminate | apply list_contains_In; exact Hc].
Qed.

Lemma misspellings_steps (v : str) :
  In v misspellings -> exists c, In (c, v) spelling_steps /\ v <> c.
Proof.
  unfold misspellings, spelling_steps; rewrite in_flat_map.
  intros [[c vs] [Hin Hv]]; apply filter_In in Hv; destruct Hv as [Hv Hne].
  exists c; split.
  - apply in_flat_map; exists (c, vs); split; [exact Hin|].
    apply in_map; exact Hv.
  - apply str_eqb_neq, negb_true_iff; exact Hne.
Qed.

Lemma misspellings_sound (v : str) :
  In v misspellings ->
  is_lower_ascii v = true
  /\ (v = py "punee" \/ cleanly_replaced v = true).
Proof.
  intros Hin.
  assert (H : forallb (fun v => is_lower_ascii v
                                && (str_eqb v (py "punee")
                                    || cleanly_replaced v))
                      misspellings = true) by (vm_compute; reflexivity).
  rewrite forallb_forall in H; specialize (H _ Hin).
  apply andb_true_iff in H; destruct H as [Hl H]; split; [exact Hl|].
  apply orb_true_iff in H; destruct H as [H | H];
    [left; apply str_eqb_eq; exact H | right; exact H].
Qed.

Section Variant.

Variables (w query_lower : str).
Hypothesis w_not_empty : w <> [].
Hypothesis w_clean : cleanly_replaced w = true.

Lemma spelling_step_preserves (c v x : str) :
  In (c, v) spelling_steps ->
  contains w x = false ->
  contains w (spelling_step query_lower c x v) = false.
Proof.
  intros Hin Hx; unfold spelling_step.
  destruct (contains v query_lower && negb (str_eqb v c)) eqn:E;
    [|exact Hx].
  apply andb_true_iff in E; destruct E as [_ E].
  apply negb_true_iff, str_eqb_neq in E.
  destruct (spelling_steps_sound Hin E) as [Hv Hc].
  apply replace_no_occurrence; [exact Hv | exact w_not_empty | | right; exact Hx].
  unfold cleanly_replaced in w_clean; rewrite forallb_forall in w_clean.
  apply w_clean; exact Hc.
Qed.

Lemma spelling_steps_preserve (l : list (str * str)) (x : str) :
  incl l spelling_steps ->
  contains w x = false ->
  contains w
    (fold_left (fun cq '(c, v) => spelling_step query_lower c cq v) l x)
  = false.
Proof.
  intros Hl Hx; apply fold_left_invariant; [exact Hx|].
  intros y [c v] Hin Hy; apply spelling_step_preserves;
    [apply Hl; exact Hin | exact Hy].
Qed.

Lemma spelling_own_step (c x : str) :
  In (c, w) spelling_steps -> w <> c ->
  contains w query_lower = true ->
  contains w (spelling_step query_lower c x w) = false.
Proof.
  intros Hin Hne Hq; unfold spelling_step.
  apply str_eqb_neq in Hne; rewrite Hq, Hne; cbn [negb andb].
  apply str_eqb_neq in Hne.
  destruct (spelling_steps_sound Hin Hne) as [_ Hc].
  apply replace_no_occurrence;
    [exact w_not_empty | exact w_not_empty | | left; reflexivity].
  unfold cleanly_replaced in w_clean; rewrite forallb_forall in w_clean.
  apply w_clean; exact Hc.
Qed.

Lemma spelling_steps_remove (c : str) (l : list (str * str)) (x : str) :
  incl l spelling_steps ->
  In (c, w) l -> w <> c ->
  contains w query_lower = true ->
  contains w
    (fold_left (fun cq '(c, v) => spelling_step query_lower c cq v) l x)
  = false.
Proof.
  intros Hl Hin Hne Hq; revert x Hl Hin.
  induction l as [|[c' v'] l IH]; intros x Hl Hin; [destruct Hin|].
  cbn [fold_left].
  assert (Hl' : incl l spelling_steps)
    by (intros e He; apply Hl; right; exact He).
  destruct Hin as [E | Hin]; [|apply IH; assumption].
  inversion E; subst c' v'.
  apply spelling_steps_preserve; [exact Hl'|].
  apply spelling_own_step; [apply Hl; left; reflexivity | exact Hne | exact Hq].
Qed.

End Variant.

(** A misspelling that no inserted word can form again does not occur in
    the corrected text. *)
Lemma clean_variant_absent (query v : str) :
  In v misspellings -> cleanly_replaced v = true ->
  contains v (_handle_spelling_mistakes U query) = false.
Proof.
  intros Hin Hclean.
  destruct (misspellings_steps Hin) as [c [Hstep Hne]].
  destruct (misspellings_sound Hin) as [Hlow _].
  destruct (spelling_steps_sound Hstep Hne) as [Hv _].
  rewrite spelling_as_steps.
  destruct (contains v (lower U query)) eqn:Eq.
  - eapply spelling_steps_remove; try eassumption.
    intros e He; exact He.
  - apply spelling_steps_preserve; try assumption.
    + intros e He; exact He.
    + destruct (contains v query) eqn:Ec; [|reflexivity].
      apply (contains_lower U _ _ Hlow) in Ec; congruence.
Qed.

End Facts.

End HandlerFacts.

(* ================================================================== *)
(** * Properties of the handler *)
(* ================================================================== *)

Import Py PyFacts SmartQueryHandler HandlerFacts.

(** ** The language-preference classifier *)

(** C1, as stated, fails: on "plots available in pune" the classifier does
    not return false. *)
Lemma english_query_not_rejected :
  should_respond_in_marathi ascii_db (py "plots available in pune") <> false.
Proof. vm_compute; discriminate. Qed.

(** C1 (amended): on "plots available in pune" the classifier returns true.
    The query has no Devanagari code point, but four transliteration keys
    ("la", "le", "plot", "plots") occur in it as substrings, which reaches
    the threshold of two. *)
Theorem english_query_answered_in_marathi (U : unicode_db) :
  let query := py "plots available in pune" in
  existsb is_devanagari query = false
  /\ filter (fun token => contains token (lower U query))
            (keys marathi_transliteration_tokens)
     = [py "la"; py "le"; py "plot"; py "plots"]
  /\ count_in (keys marathi_transliteration_tokens) (lower U query) = 4%nat
  /\ should_respond_in_marathi U query = true.
Proof. vm_compute; repeat split; reflexivity. Qed.

(** C8: a query with a code point of the Devanagari block (U+0900 to
    U+097F) is answered in Marathi, whatever else it contains. *)
Theorem devanagari_answered_in_marathi (U : unicode_db) (query : str) (c : N) :
  In c query -> (0x0900 <= c <= 0x097F)%N ->
  should_respond_in_marathi U query = true.
Proof.
  intros Hin [Hlo Hhi]; unfold should_respond_in_marathi.
  assert (E : existsb is_devanagari query = true).
  { apply existsb_exists; exists c; split; [assumption|].
    unfold is_devanagari; apply andb_true_iff; split; apply N.leb_le;
      assumption. }
  rewrite E; reflexivity.
Qed.

Lemma devanagari_answered_in_marathi_witness :
  should_respond_in_marathi ascii_db (py "पुणे plots") = true.
Proof.
  apply (@devanagari_answered_in_marathi ascii_db (py "पुणे plots") 0x092A%N).
  - vm_compute; left; reflexivity.
  - vm_compute; split; discriminate.
Defined.

(** ** The query rewriter on given queries *)

(** C5: "plots in bhusawal" is rewritten to a query that contains
    "RO Jalgaon", "Industrial" and "MIDC Industrial Area". *)
Theorem bhusawal_round_trip (U : unicode_db) :
  exists improved,
    improve_query U (py "plots in bhusawal") = Ok improved
    /\ improved
       = py "plots in bhusaval RO Jalgaon Industrial MIDC Industrial Area"
    /\ contains (py "RO Jalgaon") improved = true
    /\ contains (py "Industrial") improved = true
    /\ contains (py "MIDC Industrial Area") improved = true.
Proof.
  eexists; split; [vm_compute; reflexivity|].
  vm_compute; repeat split; reflexivity.
Qed.

(** C4 fails on the code: for "industrial plots" both the root "plots" and
    the root "industrial" are detected, each appends the label "Industrial",
    and the list of improvements holds it twice. *)
Theorem improvements_repeat_label (U : unicode_db) :
  exists st,
    improve_query_body U (py "industrial plots") = Ok st
    /\ property_types (l_concepts st) = [py "plots"; py "industrial"]
    /\ l_improvements st
       = [py "Industrial"; py "Industrial"; py "MIDC Industrial Area"]
    /\ ~ NoDup (l_improvements st)
    /\ l_improved_query st
       = py "industrial plots Industrial Industrial MIDC Industrial Area".
Proof.
  eexists; split; [vm_compute; reflexivity|].
  repeat split; try (vm_compute; reflexivity).
  intros H; inversion H as [|x l Hn _]; subst.
  apply Hn; left; reflexivity.
Qed.

(* ================================================================== *)
(** * What the handler writes, and when it returns *)
(* ================================================================== *)

Module ConsoleFacts.

Import Py PyFacts SmartQueryHandler HandlerFacts Console.

Local Open Scope N_scope.

Local Opaque region_mappings area_to_ro_mappings property_mappings
  mixed_language_mappings marathi_transliteration_tokens semantic_synonyms
  intent_patterns spelling_variations.

Section Runs.

Variable U : unicode_db.
Variable encodes : N -> bool.






Section Traces.

Variable query : str.






(** ** Text made of the query and of UTF-8 *)








(** ** The strings of the tables *)












(** ** The steps, with their output *)










(** ** The whole method *)


End Traces.

End Runs.

End ConsoleFacts.

Import ConsoleFacts.

(** ** Totality *)




(** ** The cross-lingual normalizer *)

(** C6: a token whose lower-cased form is a transliteration key is replaced
    by its gloss, and the synonym and mixed-language tables are consulted
    only for the other tokens.  So "aahet", which is also a synonym of
    "available", becomes "are". *)
Theorem transliteration_takes_precedence (U : unicode_db) (query : str) :
  (forall improved detected word,
     mixed_language_word U (improved, detected) word
     = Ok match get marathi_transliteration_tokens (lower U word) with
          | Some gloss => (improved ++ [gloss], true)
          | None =>
            (improved ++ [fall_through (lower U word) word], detected)
          end)
  /\ _handle_mixed_language U query
     = Ok (join (py " ") (map (normalize_token U) (split query)),
           existsb (is_transliteration U) (split query))
  /\ synonym_root (py "aahet") = Some (py "available")
  /\ _handle_mixed_language U (py "aahet") = Ok (py "are", true).
Proof.
  split; [|split; [apply handle_mixed_language_spec|]].
  - intros improved detected word; rewrite mixed_language_word_spec.
    unfold normalize_token, is_transliteration, dict_contains.
    destruct (get marathi_transliteration_tokens (lower U word)).
    + rewrite orb_true_r; reflexivity.
    + rewrite orb_false_r; reflexivity.
  - split; vm_compute; reflexivity.
Qed.

(** ** The MIDC context *)


(** ** The classifier under extension of the query *)

Lemma count_in_mono (l : list str) (x y : str) :
  (forall k, In k l -> contains k x = true -> contains k y = true) ->
  (count_in l x <= count_in l y)%nat.
Proof.
  unfold count_in; induction l as [|k l IH]; intros H; simpl; [lia|].
  assert (IH' : (List.length (filter (fun token => contains token x) l)
                 <= List.length (filter (fun token => contains token y) l))%nat).
  { apply IH; intros k' Hk'; apply H; right; assumption. }
  destruct (contains k x) eqn:Ex.
  - rewrite (H k (or_introl eq_refl) Ex); simpl; lia.
  - destruct (contains k y); simpl; lia.
Qed.

Lemma transliteration_keys_ascii :
  forallb is_ascii (keys marathi_transliteration_tokens) = true.
Proof. vm_compute; reflexivity. Qed.

Lemma marathi_patterns_ascii : forallb is_ascii marathi_patterns = true.
Proof. vm_compute; reflexivity. Qed.

Lemma count_in_within (U : unicode_db) (l : list str) (s q t : str) :
  forallb is_ascii l = true ->
  (count_in l (lower U q) <= count_in l (lower U (s ++ q ++ t)))%nat.
Proof.
  intros Hl; apply count_in_mono; intros k Hk.
  apply contains_lower_within.
  rewrite forallb_forall in Hl; apply Hl; assumption.
Qed.

(** C10: the classifier is monotone under extension of the query: if it
    answers true on [q], it answers true on [s ++ q ++ t] for every prefix
    [s] and suffix [t]. *)
Theorem marathi_answer_monotone (U : unicode_db) (s q t : str) :
  should_respond_in_marathi U q = true ->
  should_respond_in_marathi U (s ++ q ++ t) = true.
Proof.
  unfold should_respond_in_marathi; rewrite !existsb_app.
  destruct (existsb is_devanagari q);
    [rewrite orb_true_r; reflexivity|].
  destruct (existsb is_devanagari s || (false || existsb is_devanagari t));
    [reflexivity|].
  pose proof (@count_in_within U _ s q t transliteration_keys_ascii) as H1.
  pose proof (@count_in_within U _ s q t marathi_patterns_ascii) as H2.
  destruct (2 <=? count_in (keys marathi_transliteration_tokens) (lower U q))%nat
    eqn:E1.
  - intros _; apply Nat.leb_le in E1.
    replace (2 <=? count_in (keys marathi_transliteration_tokens)
                            (lower U (s ++ q ++ t)))%nat with true;
      [reflexivity | symmetry; apply Nat.leb_le; lia].
  - destruct (2 <=? count_in marathi_patterns (lower U q))%nat eqn:E2;
      [intros _ | discriminate].
    apply Nat.leb_le in E2.
    destruct (2 <=? count_in (keys marathi_transliteration_tokens)
                             (lower U (s ++ q ++ t)))%nat; [reflexivity|].
    replace (2 <=? count_in marathi_patterns (lower U (s ++ q ++ t)))%nat
      with true; [reflexivity | symmetry; apply Nat.leb_le; lia].
Qed.

Lemma marathi_answer_monotone_witness :
  should_respond_in_marathi ascii_db
    (py "show " ++ py "dar kay" ++ py " ΑΣ") = true.
Proof.
  apply (@marathi_answer_monotone ascii_db (py "show ") (py "dar kay")
           (py " ΑΣ")).
  vm_compute; reflexivity.
Defined.

(** ** Queries no table matches *)

(** C2, as stated, fails: no table matches "x  y" (two spaces), yet the
    rewritten query is "x y" and not the query itself. *)
Lemma unmatched_query_changed :
  no_table_match ascii_db (py "x  y") = true
  /\ improve_query ascii_db (py "x  y") = Ok (py "x y")
  /\ improve_query ascii_db (py "x  y") <> Ok (py "x  y").
Proof.
  split; [vm_compute; reflexivity|].
  split; [vm_compute; reflexivity | vm_compute; discriminate].
Qed.

(** C2 (amended): a query no table matches is returned with its white space
    normalised, that is, as its tokens joined by single spaces.  It is
    returned character for character when it already has that form. *)
Theorem unmatched_query_normalised (U : unicode_db) (query : str) :
  no_table_match U query = true ->
  improve_query U query = Ok (join (py " ") (split query))
  /\ (forall tokens,
        forallb is_token tokens = true ->
        query = join (py " ") tokens ->
        improve_query U query = Ok query).
Proof.
  intros H; pose proof (improve_query_unmatched U query H) as E.
  split; [exact E|].
  intros tokens Ht Hq; rewrite E; f_equal.
  rewrite Hq at 1.
  change (py " ") with [32%N]; rewrite (split_join_tokens _ Ht).
  symmetry; exact Hq.
Qed.

Lemma unmatched_query_normalised_witness :
  improve_query ascii_db (py "hello  world")
  = Ok (join (py " ") (split (py "hello  world")))
  /\ improve_query ascii_db (py "hello world") = Ok (py "hello world").
Proof.
  split.
  - apply (@unmatched_query_normalised ascii_db (py "hello  world")).
    vm_compute; reflexivity.
  - destruct (@unmatched_query_normalised ascii_db (py "hello world"))
      as [_ H]; [vm_compute; reflexivity|].
    apply (H [py "hello"; py "world"]); vm_compute; reflexivity.
Defined.

(* ================================================================== *)
(** * The corrector meets the description of a correction *)
(* ================================================================== *)

Module CorrectionFacts.

Import Py SmartQueryHandler Correction PyFacts.

Lemma join_first_piece (sep : str) (c : N) (piece : str)
    (pieces : list str) :
  join sep ((c :: piece) :: pieces) = c :: join sep (piece :: pieces).
Proof. destruct pieces; reflexivity. Qed.

Lemma join_empty_piece (sep piece : str) (pieces : list str) :
  join sep ([] :: piece :: pieces) = sep ++ join sep (piece :: pieces).
Proof. reflexivity. Qed.

Lemma join_starts (sep piece : str) (pieces : list str) :
  exists rest, join sep (piece :: pieces) = piece ++ rest.
Proof.
  destruct pieces as [|q pieces].
  - exists []; cbn [join]; rewrite app_nil_r; reflexivity.
  - exists (sep ++ join sep (q :: pieces)); reflexivity.
Qed.

Lemma startswith_longer (p a b : str) :
  startswith p a = true -> startswith p (a ++ b) = true.
Proof.
  rewrite !startswith_iff; intros [r ->]; exists (r ++ b).
  rewrite app_assoc; reflexivity.
Qed.

Lemma startswith_skipn (old : str) (c : N) (r : str) :
  startswith old (c :: r) = true -> old <> [] ->
  c :: r = old ++ skipn (List.length old - 1) r.
Proof.
  intros H Hne; apply startswith_iff in H; destruct H as [rest E].
  destruct old as [|a old]; [congruence|].
  injection E as -> ->.
  cbn [List.length]; rewrite Nat.sub_succ, Nat.sub_0_r.
  rewrite skipn_app, skipn_all, Nat.sub_diag; reflexivity.
Qed.

(** The scan of [replace] cuts the text into pieces. *)
Lemma replace_go_pieces (old new : str) (n : nat) (s : str) :
  (List.length s <= n)%nat ->
  old <> [] ->
  exists piece pieces,
    s = join old (piece :: pieces)
    /\ replace_go old new 0 s = join new (piece :: pieces)
    /\ Forall (fun piece => contains old piece = false) (piece :: pieces).
Proof.
  revert s; induction n as [|n IH]; intros s Hlen Hne.
  - destruct s; [|simpl in Hlen; lia].
    exists [], []; repeat split.
    constructor; [|constructor].
    destruct old; [congruence | reflexivity].
  - destruct s as [|c r].
    { exists [], []; repeat split.
      constructor; [|constructor].
      destruct old; [congruence | reflexivity]. }
    simpl in Hlen.
    destruct (startswith old (c :: r)) eqn:Eo.
    + destruct (IH (skipn (List.length old - 1) r)) as [p [ps [Es [Er Hp]]]];
        [rewrite length_skipn; lia | exact Hne |].
      exists [], (p :: ps); split; [|split].
      * rewrite join_empty_piece, <- Es.
        apply startswith_skipn; assumption.
      * rewrite (@replace_go_match old new c r Eo), join_empty_piece, Er.
        reflexivity.
      * constructor; [|exact Hp].
        destruct old; [congruence | reflexivity].
    + destruct (IH r) as [p [ps [Es [Er Hp]]]]; [lia | exact Hne |].
      exists (c :: p), ps; split; [|split].
      * rewrite join_first_piece, <- Es; reflexivity.
      * rewrite (@replace_go_copy old new c r Eo), join_first_piece, Er.
        reflexivity.
      * apply Forall_cons_iff in Hp; destruct Hp as [Hhead Htail].
        constructor; [|exact Htail].
        rewrite contains_cons, Hhead, orb_false_r.
        destruct (startswith old (c :: p)) eqn:E; [|reflexivity].
        destruct (join_starts old p ps) as [rest Erest].
        rewrite Es, Erest in Eo.
        apply (@startswith_longer old (c :: p) rest) in E.
        cbn [app] in E; congruence.
Qed.

Lemma replace_replaces_all (old new s : str) :
  old <> [] -> replaces_all old new s (replace s old new).
Proof.
  intros Hne.
  destruct (@replace_go_pieces old new (List.length s) s (le_n _) Hne)
    as [p [ps [Es [Er Hp]]]].
  exists (p :: ps); split; [exact Es | split; [|exact Hp]].
  destruct old; [congruence | exact Er].
Qed.

(** The loop of the corrector is a row of such passes. *)
Lemma spelling_steps_corrected (query_lower : str)
    (steps : list (str * str)) (text : str) :
  (forall c v, In (c, v) steps -> v <> c -> v <> []) ->
  corrected_by query_lower steps text
    (fold_left (fun corrected_query '(correct_word, variation) =>
                  spelling_step query_lower correct_word corrected_query
                                variation)
               steps text).
Proof.
  revert text; induction steps as [|[c v] steps IH]; intros text Hsteps.
  - constructor.
  - assert (Hrest : forall c' v', In (c', v') steps -> v' <> c' -> v' <> [])
      by (intros c' v' Hin; apply Hsteps; right; exact Hin).
    cbn [fold_left]; unfold spelling_step at 2.
    destruct (contains v query_lower) eqn:Eq; cbn [andb].
    + destruct (str_eqb v c) eqn:Ev; cbn [negb].
      * apply corrected_skip; [right; apply str_eqb_eq; exact Ev|].
        apply IH; exact Hrest.
      * apply str_eqb_neq in Ev.
        eapply corrected_pass; [exact Eq | exact Ev | | apply IH; exact Hrest].
        apply replace_replaces_all; apply (Hsteps c v); [left; reflexivity|].
        exact Ev.
    + apply corrected_skip; [left; exact Eq|].
      apply IH; exact Hrest.
Qed.

End CorrectionFacts.

Import Correction CorrectionFacts.

(** ** The spelling corrector *)

(** C3, as stated, fails.  "punee" occurs in "puneee"; the replacement
    gives "punee", which still holds the variant.  And "bhusawal" occurs in
    the lower-cased "Bhusawal", but the text is returned as it is. *)
Lemma misspelling_remains :
  (In (py "punee") misspellings
   /\ contains (py "punee") (lower ascii_db (py "puneee")) = true
   /\ _handle_spelling_mistakes ascii_db (py "puneee") = py "punee"
   /\ contains (py "punee")
        (lower ascii_db (_handle_spelling_mistakes ascii_db (py "puneee")))
      = true)
  /\ (In (py "bhusawal") misspellings
      /\ contains (py "bhusawal") (lower ascii_db (py "Bhusawal")) = true
      /\ _handle_spelling_mistakes ascii_db (py "Bhusawal") = py "Bhusawal"
      /\ contains (py "bhusawal")
           (lower ascii_db
              (_handle_spelling_mistakes ascii_db (py "Bhusawal")))
         = true).
Proof.
  split; (split; [apply list_contains_In; vm_compute; reflexivity|]);
    repeat split; vm_compute; reflexivity.
Qed.

(** C3 (amended): the corrector runs one pass for each pair of the table,
    in table order.  Whenever the variant of a pair differs from the
    canonical spelling and occurs in the lower-cased query, its pass
    replaces the exact (case-sensitive) occurrences of the variant, in the
    text as the earlier passes left it, by the canonical spelling; every
    other pass changes nothing.  After the stage no exact occurrence of a
    variant other than "punee" remains. *)
Theorem misspelling_removed (U : unicode_db) (query : str) :
  corrected_by (lower U query) spelling_steps query
               (_handle_spelling_mistakes U query)
  /\ (forall variation : str,
        In variation misspellings ->
        variation <> py "punee" ->
        contains variation (_handle_spelling_mistakes U query) = false).
Proof.
  split.
  - rewrite spelling_as_steps; apply spelling_steps_corrected.
    intros c v Hin Hne; apply (spelling_steps_sound Hin Hne).
  - intros variation Hin Hne.
    destruct (misspellings_sound Hin) as [_ [E | Hclean]]; [contradiction|].
    apply clean_variant_absent; assumption.
Qed.

Lemma misspelling_removed_witness :
  corrected_by (lower ascii_db (py "plots in punee or bhusawad"))
    spelling_steps (py "plots in punee or bhusawad")
    (py "plots in pune or bhusaval")
  /\ contains (py "bhusawad") (py "plots in pune or bhusaval") = false.
Proof.
  change (py "plots in pune or bhusaval")
    with (_handle_spelling_mistakes ascii_db
            (py "plots in punee or bhusawad")).
  destruct (@misspelling_removed ascii_db (py "plots in punee or bhusawad"))
    as [Hpasses Habsent].
  split; [exact Hpasses|].
  apply Habsent.
  - apply list_contains_In; vm_compute; reflexivity.
  - vm_compute; discriminate.
Defined.

(** The corrector at work: both misspellings are replaced by their canonical
    spelling. *)
Example spelling_corrected (U : unicode_db) :
  _handle_spelling_mistakes U (py "plots in bhusawad or mumbay")
  = py "plots in bhusaval or mumbai".
Proof. vm_compute; reflexivity. Qed.

(* ================================================================== *)
(** * Further properties of the handler *)
(* ================================================================== *)

Module MoreFacts.

Import Py PyMore PyFacts SmartQueryHandler HandlerFacts Phrases.

Local Opaque region_mappings area_to_ro_mappings property_mappings
  mixed_language_mappings marathi_transliteration_tokens semantic_synonyms
  intent_patterns spelling_variations.

(** ** Lists without repetition, and counting *)

Lemma nodupb_NoDup (l : list str) : nodupb l = true -> NoDup l.
Proof.
  induction l as [|x l IH]; intros H; constructor;
    cbn [nodupb] in H; apply andb_true_iff in H; destruct H as [Hx Hl].
  - apply negb_true_iff in Hx; intros Hin.
    apply list_contains_In in Hin; congruence.
  - apply IH; exact Hl.
Qed.

Lemma NoDup_snoc {A} (l : list A) (x : A) :
  NoDup l -> ~ In x l -> NoDup (l ++ [x]).
Proof.
  induction l as [|y l IH]; intros Hl Hx; cbn [app].
  - constructor; [intros [] | constructor].
  - inversion Hl as [|y' l' Hy Hl']; subst.
    constructor.
    + rewrite in_app_iff; intros [H | [H | []]]; [exact (Hy H)|].
      apply Hx; left; symmetry; exact H.
    + apply IH; [exact Hl' | intros H; apply Hx; right; exact H].
Qed.

Lemma filter_keeps_distinct {A B} (l : list A) (key : A -> B)
    (keep : A -> bool) :
  NoDup (map key l) -> NoDup (map key (filter keep l)).
Proof.
  intros H; induction l as [|x l IH]; [constructor|].
  cbn [map] in H; inversion H as [|y l' Hx Hl]; subst.
  cbn [filter]; destruct (keep x); [|apply IH; exact Hl].
  cbn [map]; constructor; [|apply IH; exact Hl].
  intros Hin; apply Hx; apply in_map_iff in Hin.
  destruct Hin as [z [Ez Hz]]; apply filter_In in Hz; destruct Hz as [Hz _].
  apply in_map_iff; exists z; split; assumption.
Qed.

Lemma occurrences_app (x : str) (a b : list str) :
  occurrences x (a ++ b) = (occurrences x a + occurrences x b)%nat.
Proof. apply count_occ_app. Qed.

Lemma occurrences_NoDup (x : str) (l : list str) :
  NoDup l -> (occurrences x l <= 1)%nat.
Proof. intros H; apply (proj1 (NoDup_count_occ str_eq_dec l) H). Qed.

Lemma occurrences_absent (x : str) (l : list str) :
  ~ In x l -> occurrences x l = 0%nat.
Proof. apply count_occ_not_In. Qed.

Lemma occurrences_present (x : str) (l : list str) :
  (0 < occurrences x l)%nat -> In x l.
Proof. intros H; apply (count_occ_In str_eq_dec); exact H. Qed.

Lemma flat_map_map {A B C} (f : B -> list C) (g : A -> B) (l : list A) :
  flat_map f (map g l) = flat_map (fun x => f (g x)) l.
Proof.
  induction l as [|x l IH]; [reflexivity|].
  cbn [map flat_map]; rewrite IH; reflexivity.
Qed.

Lemma map_as_flat_map {A B} (f : A -> B) (l : list A) :
  map f l = flat_map (fun x => [f x]) l.
Proof.
  induction l as [|x l IH]; [reflexivity|].
  cbn [map flat_map app]; rewrite IH; reflexivity.
Qed.

(** Selecting fewer entries of a table gives fewer occurrences. *)
Lemma occurrences_selected {A} (x : str) (f : A -> list str)
    (p q : A -> bool) (l : list A) :
  (forall e, p e = true -> q e = true) ->
  (occurrences x (flat_map f (filter p l))
   <= occurrences x (flat_map f (filter q l)))%nat.
Proof.
  intros Hpq; induction l as [|e l IH]; [apply Nat.le_refl|].
  cbn [filter]; destruct (p e) eqn:Ep.
  - rewrite (Hpq e Ep); cbn [flat_map]; rewrite !occurrences_app; lia.
  - destruct (q e); [|exact IH].
    cbn [flat_map]; rewrite occurrences_app; lia.
Qed.

Lemma occurrences_all {A} (x : str) (f : A -> list str) (p : A -> bool)
    (l : list A) :
  (occurrences x (flat_map f (filter p l))
   <= occurrences x (flat_map f l))%nat.
Proof.
  induction l as [|e l IH]; [apply Nat.le_refl|].
  cbn [filter flat_map]; destruct (p e);
    cbn [flat_map]; rewrite ?occurrences_app; lia.
Qed.

(** ** The steps of [improve_query] as concatenations *)

Lemma add_ro_context_NoDup (locs : list (str * str)) (imps : list str) :
  NoDup imps -> NoDup (add_ro_context locs imps).
Proof.
  intros H; unfold add_ro_context; apply fold_left_invariant; [exact H|].
  intros x [loc ro] _ Hx.
  destruct (list_contains ro x) eqn:E; [exact Hx|].
  apply NoDup_snoc; [exact Hx|].
  intros Hin; apply list_contains_In in Hin; congruence.
Qed.

Lemma add_ro_context_keeps (locs : list (str * str)) (imps : list str)
    (x : str) :
  In x imps -> In x (add_ro_context locs imps).
Proof.
  unfold add_ro_context; revert imps.
  induction locs as [|[loc ro] locs IH]; intros imps H; [exact H|].
  cbn [fold_left]; apply IH.
  destruct (list_contains ro imps); [exact H|].
  apply in_app_iff; left; exact H.
Qed.

Lemma add_ro_context_complete (locs : list (str * str)) (imps : list str)
    (loc ro : str) :
  In (loc, ro) locs -> In ro (add_ro_context locs imps).
Proof.
  revert imps; induction locs as [|[loc' ro'] locs IH]; intros imps H;
    [destruct H|].
  destruct H as [E | H].
  - inversion E; subst loc' ro'.
    change (add_ro_context ((loc, ro) :: locs) imps)
      with (add_ro_context locs
              (if list_contains ro imps then imps else imps ++ [ro])).
    apply add_ro_context_keeps.
    destruct (list_contains ro imps) eqn:Ec.
    + apply list_contains_In; exact Ec.
    + apply in_app_iff; right; left; reflexivity.
  - change (add_ro_context ((loc', ro') :: locs) imps)
      with (add_ro_context locs
              (if list_contains ro' imps then imps else imps ++ [ro'])).
    apply IH; exact H.
Qed.

Lemma add_price_context_eq (terms imps : list str) :
  add_price_context terms imps = imps ++ map price_phrase terms.
Proof.
  unfold add_price_context; revert imps.
  induction terms as [|t terms IH]; intros imps; cbn [fold_left map].
  - rewrite app_nil_r; reflexivity.
  - rewrite IH; unfold price_phrase.
    destruct (str_eqb t (py "cheap"));
      [|destruct (str_eqb t (py "expensive"))];
      rewrite <- app_assoc; reflexivity.
Qed.

Lemma add_intent_context_eq (its imps : list str) :
  add_intent_context its imps = imps ++ flat_map intent_phrase its.
Proof.
  unfold add_intent_context; revert imps.
  induction its as [|t its IH]; intros imps; cbn [fold_left flat_map].
  - rewrite app_nil_r; reflexivity.
  - rewrite IH; unfold intent_phrase.
    destruct (str_eqb t (py "cheapest"));
      [|destruct (str_eqb t (py "largest"));
        [|destruct (str_eqb t (py "comparison"))]];
      rewrite <- ?app_assoc; reflexivity.
Qed.

Lemma context_phrases_eq (U : unicode_db) (query : str) :
  let c := _extract_root_concepts U query in
  context_phrases U query
  = add_ro_context
      (_extract_locations U
         (_handle_spelling_mistakes U
            (join (py " ") (map (normalize_token U) (split query))))) []
    ++ property_labels (property_types c)
    ++ map price_phrase (price_related c)
    ++ (match availability_related c with
        | [] => []
        | _ => [py "available plots land"]
        end)
    ++ flat_map intent_phrase (intents c).
Proof.
  cbv zeta; unfold context_phrases; cbv zeta.
  rewrite add_intent_context_eq.
  unfold add_availability_context.
  destruct (availability_related (_extract_root_concepts U query));
    rewrite add_price_context_eq, <- ?app_assoc; [|reflexivity].
  rewrite app_nil_l; reflexivity.
Qed.

(** ** How often a phrase can be appended *)

Lemma roots_bound (x : str) (f : str -> list str) (query_lower : str)
    (roots : list str) :
  (occurrences x (flat_map f (extract_roots query_lower roots))
   <= occurrences x (flat_map f (roots_in_table roots)))%nat.
Proof.
  unfold extract_roots, roots_in_table; rewrite !flat_map_map.
  apply occurrences_selected; intros [root_word synonyms] H.
  apply andb_true_iff in H; destruct H as [H _]; exact H.
Qed.

Lemma every_context_phrase_shape :
  every_context_phrase = py "Industrial" :: tl every_context_phrase
  /\ nodupb (tl every_context_phrase) = true
  /\ forallb (fun office => negb (list_contains office every_context_phrase))
             office_pool = true.
Proof. vm_compute; repeat split; reflexivity. Qed.

Lemma offices_from_pool (U : unicode_db) (text x : str) :
  In x (add_ro_context (_extract_locations U text) []) -> In x office_pool.
Proof.
  intros H; apply add_ro_context_In in H; destruct H as [[] | H].
  apply in_map_iff in H; destruct H as [[loc ro] [<- H]].
  apply extract_locations_values in H; exact H.
Qed.

Lemma improvements_bound (U : unicode_db) (query x : str) :
  (occurrences x
     (add_midc_context (_extract_root_concepts U query)
                       (context_phrases U query))
   <= occurrences x
        (add_ro_context
           (_extract_locations U
              (_handle_spelling_mistakes U
                 (join (py " ") (map (normalize_token U) (split query)))))
           [])
      + occurrences x every_context_phrase)%nat.
Proof.
  unfold add_midc_context; rewrite context_phrases_eq; cbv zeta.
  unfold every_context_phrase.
  assert (Hmidc :
    (occurrences x
       (if midc_relevant (_extract_root_concepts U query)
        then [py "MIDC Industrial Area"] else [])
     <= occurrences x [py "MIDC Industrial Area"])%nat).
  { destruct (midc_relevant _); [apply Nat.le_refl | apply Nat.le_0_l]. }
  replace (if midc_relevant (_extract_root_concepts U query)
           then _ ++ [py "MIDC Industrial Area"] else _)
    with ((add_ro_context
             (_extract_locations U
                (_handle_spelling_mistakes U
                   (join (py " ")
                      (map (normalize_token U) (split query))))) []
           ++ property_labels
                (property_types (_extract_root_concepts U query))
           ++ map price_phrase
                (price_related (_extract_root_concepts U query))
           ++ match availability_related (_extract_root_concepts U query)
              with
              | [] => []
              | _ :: _ => [py "available plots land"]
              end
           ++ flat_map intent_phrase
                (intents (_extract_root_concepts U query)))
          ++ (if midc_relevant (_extract_root_concepts U query)
              then [py "MIDC Industrial Area"] else []))
    by (destruct (midc_relevant _);
        [reflexivity | rewrite app_nil_r; reflexivity]).
  rewrite !occurrences_app.
  assert (Hlabels :
    (occurrences x
       (property_labels (property_types (_extract_root_concepts U query)))
     <= occurrences x (property_labels (roots_in_table property_roots)))%nat)
    by apply roots_bound.
  assert (Hprice :
    (occurrences x
       (map price_phrase (price_related (_extract_root_concepts U query)))
     <= occurrences x (map price_phrase (roots_in_table price_roots)))%nat).
  { rewrite !map_as_flat_map; apply roots_bound. }
  assert (Havail :
    (occurrences x
       match availability_related (_extract_root_concepts U query) with
       | [] => []
       | _ :: _ => [py "available plots land"]
       end
     <= occurrences x [py "available plots land"])%nat).
  { destruct (availability_related _); [apply Nat.le_0_l | apply Nat.le_refl]. }
  assert (Hintent :
    (occurrences x
       (flat_map intent_phrase (intents (_extract_root_concepts U query)))
     <= occurrences x (flat_map intent_phrase (keys intent_patterns)))%nat).
  { cbn [_extract_root_concepts intents]; unfold _detect_user_intent, keys.
    rewrite !flat_map_map; apply occurrences_all. }
  lia.
Qed.

(** Every phrase except "Industrial" is at most once among the
    improvements, "Industrial" at most twice. *)
Lemma improvements_few (U : unicode_db) (query x : str) :
  (occurrences x
     (add_midc_context (_extract_root_concepts U query)
                       (context_phrases U query))
   <= if str_eqb x (py "Industrial") then 2 else 1)%nat.
Proof.
  pose proof (improvements_bound U query x) as Hb.
  destruct every_context_phrase_shape as [Eshape [Hnodup Hpool]].
  set (ros := add_ro_context _ []) in Hb.
  assert (Hros : (occurrences x ros <= 1)%nat)
    by (apply occurrences_NoDup, add_ro_context_NoDup; constructor).
  assert (Hrest : (occurrences x (tl every_context_phrase) <= 1)%nat)
    by (apply occurrences_NoDup, nodupb_NoDup; exact Hnodup).
  assert (Hdisj : (0 < occurrences x ros)%nat ->
                  occurrences x every_context_phrase = 0%nat).
  { intros Hpos; apply occurrences_absent; intros Hin.
    apply occurrences_present, offices_from_pool in Hpos.
    rewrite forallb_forall in Hpool; specialize (Hpool _ Hpos).
    apply negb_true_iff in Hpool.
    apply list_contains_In in Hin; congruence. }
  assert (Hfull : (occurrences x every_context_phrase
                   <= if str_eqb x (py "Industrial") then 2 else 1)%nat).
  { rewrite Eshape; unfold occurrences at 1.
    destruct (str_eqb x (py "Industrial")) eqn:Ex.
    - apply str_eqb_eq in Ex; subst x.
      rewrite count_occ_cons_eq by reflexivity.
      unfold occurrences in Hrest; lia.
    - apply str_eqb_neq in Ex.
      rewrite count_occ_cons_neq by (intros E; apply Ex; symmetry; exact E).
      exact Hrest. }
  destruct (str_eqb x (py "Industrial")); lia.
Qed.

(** ** Counting the keys that occur in a text *)

Lemma count_in_incl (l1 l2 : list str) (text : str) :
  NoDup l1 -> incl l1 l2 ->
  (count_in l1 text <= count_in l2 text)%nat.
Proof.
  intros Hn Hi; unfold count_in; apply NoDup_incl_length.
  - apply NoDup_filter; exact Hn.
  - intros k Hk; apply filter_In in Hk; destruct Hk as [Hk Hc].
    apply filter_In; split; [apply Hi; exact Hk | exact Hc].
Qed.

Lemma marathi_patterns_are_keys :
  nodupb marathi_patterns = true
  /\ forallb (fun pattern =>
                list_contains pattern (keys marathi_transliteration_tokens))
             marathi_patterns = true.
Proof. vm_compute; split; reflexivity. Qed.

Lemma pattern_count_le (text : str) :
  (count_in marathi_patterns text
   <= count_in (keys marathi_transliteration_tokens) text)%nat.
Proof.
  destruct marathi_patterns_are_keys as [Hn Hk].
  apply count_in_incl; [apply nodupb_NoDup; exact Hn|].
  intros k Hin; rewrite forallb_forall in Hk.
  apply list_contains_In, Hk; exact Hin.
Qed.

Lemma contains_trans (a b s : str) :
  contains a b = true -> contains b s = true -> contains a s = true.
Proof.
  rewrite !contains_iff; intros [x [y ->]] [u [v ->]].
  exists (u ++ x), (y ++ v); rewrite <- !app_assoc; reflexivity.
Qed.

(** ** Keys of a dict *)

Lemma get_key {V} (d : dict V) (k : str) (v : V) :
  get d k = Some v -> In k (keys d).
Proof.
  unfold keys; induction d as [|[k' v'] d IH]; cbn [get map fst];
    [discriminate|].
  destruct (str_eqb k' k) eqn:E.
  - intros _; left; apply str_eqb_eq; exact E.
  - intros H; right; apply IH; exact H.
Qed.

(** Of the mixed-language table only the entry for "kimi" is not hidden by
    a transliteration key or a synonym. *)
Lemma mixed_keys_hidden :
  forallb (fun k =>
             str_eqb k (py "kimi")
             || dict_contains marathi_transliteration_tokens k
             || match synonym_root k with Some _ => true | None => false end)
          (keys mixed_language_mappings) = true
  /\ get mixed_language_mappings (py "kimi") = Some (py "price").
Proof. vm_compute; split; reflexivity. Qed.

Lemma table_keys_distinct :
  nodupb (keys semantic_synonyms) = true
  /\ nodupb (keys intent_patterns) = true.
Proof. vm_compute; split; reflexivity. Qed.

(** ** [replace] where nothing is found *)

Lemma replace_go_absent (old new s : str) :
  contains old s = false -> replace_go old new 0 s = s.
Proof.
  induction s as [|c s IH]; intros H; [reflexivity|].
  rewrite contains_cons in H; apply orb_false_elim in H.
  destruct H as [Hs Hc].
  rewrite (@replace_go_copy old new c s Hs), (IH Hc); reflexivity.
Qed.

Lemma replace_absent (s old new : str) :
  old <> [] -> contains old s = false -> replace s old new = s.
Proof.
  intros Ho H; unfold replace; destruct old; [congruence|].
  apply replace_go_absent; exact H.
Qed.

Lemma steps_misspellings (c v : str) :
  In (c, v) spelling_steps -> v <> c -> In v misspellings.
Proof.
  unfold spelling_steps, misspellings; rewrite !in_flat_map.
  intros [[c' vs] [Hin Hv]] Hne; apply in_map_iff in Hv.
  destruct Hv as [v' [E Hv]]; inversion E; subst c' v'.
  exists (c, vs); split; [exact Hin|].
  apply filter_In; split; [exact Hv|].
  apply negb_true_iff, str_eqb_neq; exact Hne.
Qed.


(** ** ASCII queries *)

Lemma ascii_not_devanagari (query : str) :
  is_ascii query = true -> existsb is_devanagari query = false.
Proof.
  unfold is_ascii; induction query as [|c q IH]; intros H; [reflexivity|].
  cbn [forallb] in H; apply andb_true_iff in H; destruct H as [Hc Hq].
  cbn [existsb]; rewrite (IH Hq), orb_false_r.
  unfold is_devanagari; apply N.ltb_lt in Hc.
  apply andb_false_iff; left; apply N.leb_gt.
  eapply N.lt_trans; [exact Hc | reflexivity].
Qed.

(** ** The classifier *)

Lemma classifier_two_rules (U : unicode_db) (query : str) :
  should_respond_in_marathi U query
  = existsb is_devanagari query
    || (2 <=? count_in (keys marathi_transliteration_tokens)
                       (lower U query))%nat.
Proof.
  unfold should_respond_in_marathi.
  destruct (existsb is_devanagari query); [reflexivity|].
  cbn [orb].
  destruct (2 <=? count_in (keys marathi_transliteration_tokens)
                           (lower U query))%nat eqn:E; [reflexivity|].
  apply Nat.leb_gt in E.
  pose proof (pattern_count_le (lower U query)) as H.
  replace (2 <=? count_in marathi_patterns (lower U query))%nat with false;
    [reflexivity | symmetry; apply Nat.leb_gt; lia].
Qed.

Lemma plot_and_plots_counted (text : str) :
  contains (py "plots") text = true ->
  (2 <= count_in (keys marathi_transliteration_tokens) text)%nat.
Proof.
  intros H.
  assert (Hplot : contains (py "plot") text = true).
  { apply contains_trans with (b := py "plots"); [|exact H].
    vm_compute; reflexivity. }
  apply Nat.le_trans with (m := count_in [py "plot"; py "plots"] text).
  - unfold count_in; cbn [filter]; rewrite Hplot, H; apply Nat.le_refl.
  - apply count_in_incl.
    + apply nodupb_NoDup; vm_compute; reflexivity.
    + intros k Hk; apply list_contains_In.
      destruct Hk as [<- | [<- | []]]; vm_compute; reflexivity.
Qed.

End MoreFacts.

Import PyMore Phrases MoreFacts.

(** ** The improvements *)

(** X1: among the improvements of any query every phrase occurs at most
    once, except the category "Industrial", which occurs at most twice. *)
Theorem improvements_multiplicity (U : unicode_db) (query : str) :
  exists st,
    improve_query_body U query = Ok st
    /\ forall phrase,
         (occurrences phrase (l_improvements st)
          <= if str_eqb phrase (py "Industrial") then 2 else 1)%nat.
Proof.
  destruct (improve_query_body_spec U query)
    as [st [E [Ec [_ [_ [Ei _]]]]]].
  exists st; split; [exact E|].
  intros phrase; rewrite Ei, Ec; apply improvements_few.
Qed.

(** X2: every city of the region table and every area of the area table
    that occurs in the lower-cased corrected query has its office among the
    improvements. *)
Theorem offices_complete (U : unicode_db) (query : str) (st : locals)
    (place ro : str) :
  improve_query_body U query = Ok st ->
  In (place, ro) (region_mappings ++ area_to_ro_mappings) ->
  contains place (lower U (l_corrected_query st)) = true ->
  In ro (l_improvements st).
Proof.
  intros Hst Hin Hc.
  destruct (improve_query_body_spec U query)
    as [st' [E [Ec [Em [Eq [Ei _]]]]]].
  rewrite Hst in E; inversion E; subst st'; clear E.
  rewrite Ei; unfold add_midc_context.
  assert (H : In ro (context_phrases U query)).
  { rewrite context_phrases_eq; cbv zeta.
    apply in_app_iff; left.
    rewrite Eq, Em in Hc.
    apply add_ro_context_complete with (loc := place).
    unfold _extract_locations; cbv zeta.
    apply in_app_iff in Hin; destruct Hin as [Hin | Hin].
    - apply in_app_iff; left; apply filter_In; split; [exact Hin | exact Hc].
    - apply in_app_iff; right; apply in_app_iff; left.
      apply filter_In; split; [exact Hin | exact Hc]. }
  destruct (midc_relevant (l_concepts st)); [|exact H].
  apply in_app_iff; left; exact H.
Qed.

Lemma offices_complete_witness :
  exists st,
    improve_query_body ascii_db (py "Plots in Talegaon") = Ok st
    /\ In (py "RO PUNE-I") (l_improvements st).
Proof.
  eexists; split; [vm_compute; reflexivity|].
  eapply (@offices_complete ascii_db (py "Plots in Talegaon") _
            (py "talegaon") (py "RO PUNE-I")).
  - vm_compute; reflexivity.
  - apply in_app_iff; right; vm_compute.
    do 3 right; left; reflexivity.
  - vm_compute; reflexivity.
Defined.

(** X3: every improvement is an office of the two location tables, a
    category of the property table, one of the seven fixed phrases or
    "MIDC Industrial Area"; nothing of the query itself is ever appended. *)
Theorem improvement_provenance (U : unicode_db) (query : str) :
  exists st,
    improve_query_body U query = Ok st
    /\ forall phrase,
         In phrase (l_improvements st) ->
         In phrase phrase_pool \/ phrase = py "MIDC Industrial Area".
Proof.
  destruct (improve_query_body_spec U query)
    as [st [E [Ec [_ [_ [Ei _]]]]]].
  exists st; split; [exact E|].
  intros phrase; rewrite Ei; unfold add_midc_context.
  destruct (midc_relevant (l_concepts st)).
  - rewrite in_app_iff; intros [H | [H | []]].
    + left; apply (context_phrases_pool U query); exact H.
    + right; symmetry; exact H.
  - intros H; left; apply (context_phrases_pool U query); exact H.
Qed.

(** ** The classifier *)

(** X4: the third rule of the classifier never decides: every pattern of
    its list is a transliteration key, so the answer is true exactly when
    the query has a Devanagari code point or two transliteration keys occur
    in it. *)
Theorem pattern_rule_redundant (U : unicode_db) (query : str) :
  should_respond_in_marathi U query
  = existsb is_devanagari query
    || (2 <=? count_in (keys marathi_transliteration_tokens)
                       (lower U query))%nat.
Proof.
  unfold should_respond_in_marathi.
  destruct (existsb is_devanagari query); [reflexivity|].
  destruct (2 <=? count_in (keys marathi_transliteration_tokens)
                           (lower U query))%nat eqn:Ekeys; [reflexivity|].
  destruct (2 <=? count_in marathi_patterns (lower U query))%nat eqn:Epat;
    [|reflexivity].
  apply Nat.leb_gt in Ekeys; apply Nat.leb_le in Epat.
  pose proof (pattern_count_le (lower U query)) as Hle; lia.
Qed.

(** X5: a query in which "plots" occurs, in any letter case, is answered in
    Marathi: "plot" and "plots" are both transliteration keys. *)
Theorem plots_answered_in_marathi (U : unicode_db) (query : str) :
  contains (py "plots") (lower U query) = true ->
  should_respond_in_marathi U query = true.
Proof.
  intros H; rewrite classifier_two_rules.
  apply plot_and_plots_counted, Nat.leb_le in H; rewrite H.
  apply orb_true_r.
Qed.

Lemma plots_answered_in_marathi_witness :
  should_respond_in_marathi ascii_db (py "Commercial PLOTS") = true.
Proof.
  apply (@plots_answered_in_marathi ascii_db (py "Commercial PLOTS")).
  vm_compute; reflexivity.
Defined.

(** ** The normalizer and the concept extractor *)

(** X6: the mixed-language table decides the rewriting of the token "kimi"
    only.  For every other token the result is the transliteration gloss,
    else the synonym root, else the token itself, as if the table were
    empty; "kimi" becomes "price". *)
Theorem mixed_table_only_kimi (U : unicode_db) (word : str)
    (improved : list str) (detected : bool) :
  lower U word <> py "kimi" ->
  mixed_language_word U (improved, detected) word
  = Ok match get marathi_transliteration_tokens (lower U word) with
       | Some gloss => (improved ++ [gloss], true)
       | None =>
         match synonym_root (lower U word) with
         | Some root_word => (improved ++ [root_word], detected)
         | None => (improved ++ [word], detected)
         end
       end
  /\ mixed_language_word U (improved, detected) (py "kimi")
     = Ok (improved ++ [py "price"], detected).
Proof.
  intros Hne; split.
  - rewrite mixed_language_word_spec.
    unfold normalize_token, is_transliteration, fall_through, dict_contains.
    destruct (get marathi_transliteration_tokens (lower U word)) eqn:Et;
      [rewrite orb_true_r; reflexivity|].
    rewrite orb_false_r.
    destruct (synonym_root (lower U word)) eqn:Es; [reflexivity|].
    destruct (get mixed_language_mappings (lower U word)) eqn:Em;
      [|reflexivity].
    exfalso; destruct mixed_keys_hidden as [H _].
    rewrite forallb_forall in H; specialize (H _ (get_key _ _ Em)).
    unfold dict_contains in H; rewrite Et, Es in H.
    rewrite !orb_false_r in H; apply str_eqb_eq in H; exact (Hne H).
  - rewrite mixed_language_word_spec.
    replace (normalize_token U (py "kimi")) with (py "price")
      by (vm_compute; reflexivity).
    replace (is_transliteration U (py "kimi")) with false
      by (vm_compute; reflexivity).
    rewrite orb_false_r; reflexivity.
Qed.

Lemma mixed_table_only_kimi_witness :
  mixed_language_word ascii_db ([], false) (py "Rate")
  = Ok ([py "price"], false).
Proof.
  destruct (@mixed_table_only_kimi ascii_db (py "Rate") [] false) as [H _].
  - vm_compute; discriminate.
  - rewrite H; vm_compute; reflexivity.
Defined.

(** X7: no field of the concept record holds a root twice, and each holds
    roots of its own category only; the intents are distinct labels of the
    intent table. *)
Theorem concepts_distinct (U : unicode_db) (query : str) :
  let c := _extract_root_concepts U query in
  (NoDup (locations c) /\ incl (locations c) location_roots)
  /\ (NoDup (property_types c) /\ incl (property_types c) property_roots)
  /\ (NoDup (price_related c) /\ incl (price_related c) price_roots)
  /\ (NoDup (availability_related c)
      /\ incl (availability_related c) availability_roots)
  /\ (NoDup (intents c) /\ incl (intents c) (keys intent_patterns)).
Proof.
  destruct table_keys_distinct as [Hs Hi].
  apply nodupb_NoDup in Hs, Hi.
  assert (Hroots : forall roots,
            NoDup (extract_roots (lower U query) roots)
            /\ incl (extract_roots (lower U query) roots) roots).
  { intros roots; unfold extract_roots; split.
    - apply filter_keeps_distinct; exact Hs.
    - intros r Hr; apply in_map_iff in Hr.
      destruct Hr as [[root_word synonyms] [<- Hr]].
      apply filter_In in Hr; destruct Hr as [_ Hr].
      apply andb_true_iff in Hr; destruct Hr as [Hr _].
      apply list_contains_In; exact Hr. }
  cbv zeta; cbn [_extract_root_concepts locations property_types
                 price_related availability_related intents].
  repeat (split; [apply Hroots|]).
  unfold _detect_user_intent; split.
  - apply filter_keeps_distinct; exact Hi.
  - intros r Hr; apply in_map_iff in Hr.
    destruct Hr as [e [<- Hr]]; apply filter_In in Hr.
    apply in_map; apply Hr.
Qed.

(** ** The spelling corrector *)

(** X8: a text in which no misspelling occurs in exactly the letters of the
    table is returned unchanged, whatever its lower-cased form contains. *)
Theorem spelling_needs_exact_match (U : unicode_db) (text : str) :
  none_occurs misspellings text = true ->
  _handle_spelling_mistakes U text = text.
Proof.
  intros H; unfold none_occurs in H; rewrite forallb_forall in H.
  rewrite spelling_as_steps.
  apply (fold_left_invariant (fun x => x = text)); [reflexivity|].
  intros x [c v] Hin ->; unfold spelling_step.
  destruct (contains v (lower U text) && negb (str_eqb v c)) eqn:E;
    [|reflexivity].
  apply andb_true_iff in E; destruct E as [_ E].
  apply negb_true_iff, str_eqb_neq in E.
  destruct (spelling_steps_sound Hin E) as [Hv _].
  apply replace_absent; [exact Hv|].
  apply negb_true_iff, H, (steps_misspellings Hin E).
Qed.

Lemma spelling_needs_exact_match_witness :
  _handle_spelling_mistakes ascii_db (py "Plots in BHUSAWAL or Mumbay")
  = py "Plots in BHUSAWAL or Mumbay".
Proof.
  apply (@spelling_needs_exact_match ascii_db
           (py "Plots in BHUSAWAL or Mumbay")).
  vm_compute; reflexivity.
Defined.

(** ** Letter case *)

(** X9: on ASCII queries the classifier and the concept extractor do not
    see the letter case: two queries with the same lower-cased form get the
    same answer and the same concept record. *)
Theorem detection_ignores_case (U : unicode_db) (query1 query2 : str) :
  is_ascii query1 = true -> is_ascii query2 = true ->
  lower U query1 = lower U query2 ->
  should_respond_in_marathi U query1 = should_respond_in_marathi U query2
  /\ _extract_root_concepts U query1 = _extract_root_concepts U query2.
Proof.
  intros H1 H2 E; split.
  - rewrite !classifier_two_rules, !ascii_not_devanagari, E by assumption.
    reflexivity.
  - unfold _extract_root_concepts, _detect_user_intent; rewrite E.
    reflexivity.
Qed.

Lemma detection_ignores_case_witness :
  should_respond_in_marathi ascii_db (py "PLOTS Madhe Aahet")
  = should_respond_in_marathi ascii_db (py "plots madhe aahet")
  /\ _extract_root_concepts ascii_db (py "PLOTS Madhe Aahet")
     = _extract_root_concepts ascii_db (py "plots madhe aahet").
Proof.
  apply (@detection_ignores_case ascii_db (py "PLOTS Madhe Aahet")
           (py "plots madhe aahet")); vm_compute; reflexivity.
Defined.

(* ================================================================== *)
(** * The retrieval service, the endpoint and the scraper *)
(* ================================================================== *)

Module ServiceFacts.

Import Py PyMore PyFacts LangChainFinalRAG TabularScraper.

(** ** [split] at the first occurrence *)

Lemma partition_go_found (sep before s : str) :
  contains sep s = true ->
  exists b a, partition_go sep before s = Some (b, a).
Proof.
  revert before; induction s as [|c s IH]; intros before H.
  - cbn [contains] in H; rewrite orb_false_r in H.
    cbn [partition_go]; rewrite H; eauto.
  - rewrite contains_cons in H; cbn [partition_go].
    destruct (startswith sep (c :: s)); [eauto|].
    apply IH; exact H.
Qed.

Lemma split_once_second (s sep : str) :
  contains sep s = true ->
  exists after, list_getitem (split_once s sep) 1 = Value after.
Proof.
  intros H; unfold split_once.
  destruct (partition_go_found sep [] s H) as [b [a ->]].
  exists a; reflexivity.
Qed.

(** ** [_is_greeting] *)

Lemma is_greeting_cases (U : unicode_db) (query : str) :
  let query_lower := strip (lower U query) in
  let casual :=
    existsb (fun casual => contains casual query_lower) casual_questions in
  _is_greeting U query = Value casual
  \/ (_is_greeting U query = Value true
      /\ existsb (fun greeting => contains greeting query_lower) greetings
         = true).
Proof.
  cbv zeta; unfold _is_greeting; cbv zeta.
  destruct (existsb _ greetings) eqn:Eg; [|left; reflexivity].
  destruct (find _ greetings) as [g|] eqn:Ef; [|left; reflexivity].
  apply find_some in Ef; destruct Ef as [_ Hc].
  unfold after_greeting.
  destruct (split_once_second _ _ Hc) as [after ->].
  match goal with
  | |- context [(?n <? 3)%nat] => destruct (n <? 3)%nat
  end; [right; split; reflexivity | left; reflexivity].
Qed.

(** ** [_calculate_confidence] *)

Lemma calculate_confidence_eq {A} (l : list A) :
  _calculate_confidence l
  = (if (5 <=? List.length l)%nat then 9
     else if (3 <=? List.length l)%nat then 7
     else if (1 <=? List.length l)%nat then 5
     else 3)%N.
Proof. destruct l; reflexivity. Qed.

(** ** The rows the scraper keeps *)

Lemma first_five_cells (rows : list row) :
  Forall five_cells (first_five rows).
Proof.
  unfold first_five; induction rows as [|r rows IH]; [constructor|].
  cbn [filter]; destruct (5 <=? List.length r)%nat eqn:E; [|exact IH].
  cbn [map]; constructor; [|exact IH].
  apply Nat.leb_le in E; unfold five_cells.
  rewrite length_firstn; lia.
Qed.

Lemma extract_plots_cells (p : page) : Forall five_cells (extract_plots p).
Proof.
  unfold extract_plots.
  destruct (main_table p) as [t|].
  - destruct (tbody_rows t); apply first_five_cells.
  - destruct (find is_alternative (all_tables p));
      [apply first_five_cells | constructor].
Qed.

(** ** The loop of the scraper *)

Section Loop.

Variable fetch : nat -> response.
Variable max_pages : option Z.

Lemma scrape_loop_cells (fuel page : nat) (all_plots_data : list row)
    (rows : list row) (last_page : nat) :
  Forall five_cells all_plots_data ->
  scrape_loop fetch max_pages fuel page all_plots_data
  = Some (Finished rows last_page) ->
  Forall five_cells rows.
Proof.
  revert page all_plots_data; induction fuel as [|fuel IH];
    intros page all_plots_data Hall H; [discriminate|].
  cbn [scrape_loop] in H.
  destruct (fetch page) as [p|]; [|discriminate].
  pose proof (extract_plots_cells p) as Hp.
  destruct (extract_plots p) as [|r plots] eqn:Ep.
  { inversion H; subst; exact Hall. }
  assert (Hall' : Forall five_cells (all_plots_data ++ r :: plots))
    by (apply Forall_app; split; assumption).
  destruct (max_pages_reached max_pages page);
    [inversion H; subst; exact Hall'|].
  destruct (List.length (r :: plots) <? 10)%nat;
    [inversion H; subst; exact Hall'|].
  destruct (duplicate_detected page (r :: plots)
              (all_plots_data ++ r :: plots));
    [inversion H; subst; exact Hall'|].
  destruct (1181 <=? List.length (all_plots_data ++ r :: plots))%nat;
    [inversion H; subst; exact Hall'|].
  eapply IH; [exact Hall' | exact H].
Qed.

(** Every page that does not end the loop adds ten rows or more, and the
    loop ends at 1181 rows: the 119th request is the last one at most. *)
Lemma scrape_loop_ends (fuel page : nat) (all_plots_data : list row) :
  (10 * (page - 1) <= List.length all_plots_data)%nat ->
  (List.length all_plots_data < 1181)%nat ->
  (120 <= fuel + page)%nat ->
  exists loop_end,
    (forall fuel', (fuel <= fuel')%nat ->
       scrape_loop fetch max_pages fuel' page all_plots_data
       = Some loop_end)
    /\ match loop_end with
       | Finished _ last_page => (last_page <= 119)%nat
       | Failed => True
       end.
Proof.
  revert page all_plots_data; induction fuel as [|fuel IH];
    intros page all_plots_data Hrows Hfew Hfuel; [lia|].
  assert (Hpage : (page <= 119)%nat) by lia.
  destruct (fetch page) as [p|] eqn:Ef.
  2:{ exists Failed; split; [|exact I].
      intros [|fuel'] Hle; [lia|]; cbn [scrape_loop]; rewrite Ef;
        reflexivity. }
  destruct (extract_plots p) as [|r plots] eqn:Ep.
  { exists (Finished all_plots_data page); split; [|exact Hpage].
    intros [|fuel'] Hle; [lia|]; cbn [scrape_loop]; rewrite Ef, Ep;
      reflexivity. }
  destruct (max_pages_reached max_pages page) eqn:Em.
  { exists (Finished (all_plots_data ++ r :: plots) page);
      split; [|exact Hpage].
    intros [|fuel'] Hle; [lia|]; cbn [scrape_loop]; rewrite Ef, Ep, Em;
      reflexivity. }
  destruct (List.length (r :: plots) <? 10)%nat eqn:El.
  { exists (Finished (all_plots_data ++ r :: plots) page);
      split; [|exact Hpage].
    intros [|fuel'] Hle; [lia|]; cbn [scrape_loop];
      rewrite Ef, Ep, Em, El; reflexivity. }
  destruct (duplicate_detected page (r :: plots)
              (all_plots_data ++ r :: plots)) eqn:Ed.
  { exists (Finished (all_plots_data ++ r :: plots) page);
      split; [|exact Hpage].
    intros [|fuel'] Hle; [lia|]; cbn [scrape_loop];
      rewrite Ef, Ep, Em, El, Ed; reflexivity. }
  destruct (1181 <=? List.length (all_plots_data ++ r :: plots))%nat eqn:Et.
  { exists (Finished (all_plots_data ++ r :: plots) page);
      split; [|exact Hpage].
    intros [|fuel'] Hle; [lia|]; cbn [scrape_loop];
      rewrite Ef, Ep, Em, El, Ed, Et; reflexivity. }
  pose proof El as El'; pose proof Et as Et'.
  apply Nat.ltb_ge in El; apply Nat.leb_gt in Et.
  destruct (IH (S page) (all_plots_data ++ r :: plots))
    as [loop_end [Hrun Hlast]].
  - rewrite length_app; lia.
  - exact Et.
  - lia.
  - exists loop_end; split; [|exact Hlast].
    intros [|fuel'] Hle; [lia|]; cbn [scrape_loop].
    rewrite Ef, Ep, Em, El', Ed, Et'; apply Hrun; lia.
Qed.

End Loop.

(** ** The page limit *)

Lemma scrape_loop_limit (fetch : nat -> response) (m : Z)
    (fuel page : nat) (all_plots_data rows : list row) (last_page : nat) :
  m <> 0%Z ->
  (Z.of_nat page <= Z.max 1 m)%Z ->
  scrape_loop fetch (Some m) fuel page all_plots_data
  = Some (Finished rows last_page) ->
  (Z.of_nat last_page <= Z.max 1 m)%Z.
Proof.
  intros Hm; revert page all_plots_data; induction fuel as [|fuel IH];
    intros page all_plots_data Hpage H; [discriminate|].
  cbn [scrape_loop] in H.
  destruct (fetch page) as [p|]; [|discriminate].
  destruct (extract_plots p) as [|r plots];
    [inversion H; subst; exact Hpage|].
  destruct (max_pages_reached (Some m) page) eqn:Em;
    [inversion H; subst; exact Hpage|].
  destruct (List.length (r :: plots) <? 10)%nat;
    [inversion H; subst; exact Hpage|].
  destruct (duplicate_detected page (r :: plots)
              (all_plots_data ++ r :: plots));
    [inversion H; subst; exact Hpage|].
  destruct (1181 <=? List.length (all_plots_data ++ r :: plots))%nat;
    [inversion H; subst; exact Hpage|].
  apply IH in H; [exact H|].
  unfold max_pages_reached in Em.
  apply andb_false_iff in Em; destruct Em as [Em | Em].
  - apply negb_false_iff, Z.eqb_eq in Em; contradiction.
  - apply Z.leb_gt in Em; lia.
Qed.

Lemma scrape_loop_zero (fetch : nat -> response) (fuel page : nat)
    (all_plots_data : list row) :
  scrape_loop fetch (Some 0%Z) fuel page all_plots_data
  = scrape_loop fetch None fuel page all_plots_data.
Proof.
  revert page all_plots_data; induction fuel as [|fuel IH];
    intros page all_plots_data; [reflexivity|].
  cbn [scrape_loop].
  destruct (fetch page) as [p|]; [|reflexivity].
  destruct (extract_plots p) as [|r plots]; [reflexivity|].
  change (max_pages_reached (Some 0%Z) page) with false.
  change (max_pages_reached None page) with false.
  cbv iota.
  destruct (List.length (r :: plots) <? 10)%nat; [reflexivity|].
  destruct (duplicate_detected page (r :: plots)
              (all_plots_data ++ r :: plots)); [reflexivity|].
  destruct (1181 <=? List.length (all_plots_data ++ r :: plots))%nat;
    [reflexivity|].
  apply IH.
Qed.

(** ** One tab *)

Lemma scrape_result (fetch : nat -> response) (max_pages : option Z) :
  exists rows,
    (forall fuel, (119 <= fuel)%nat ->
       scrape_midc_land_bank fetch max_pages fuel = Some rows)
    /\ Forall five_cells rows.
Proof.
  destruct (@scrape_loop_ends fetch max_pages 119 1 [])
    as [loop_end [Hrun _]]; [simpl; lia | simpl; lia | lia |].
  assert (E : forall fuel, (119 <= fuel)%nat ->
                scrape_midc_land_bank fetch max_pages fuel
                = Some match loop_end with
                       | Finished all_plots_data _ => all_plots_data
                       | Failed => []
                       end).
  { intros fuel Hfuel; unfold scrape_midc_land_bank.
    rewrite (Hrun fuel Hfuel); destruct loop_end; reflexivity. }
  eexists; split; [exact E|].
  destruct loop_end as [all_plots_data last_page|]; [|constructor].
  eapply scrape_loop_cells; [|apply (Hrun 119%nat (Nat.le_refl _))].
  constructor.
Qed.

(** ** The duplicate test *)

Lemma width_five (rows : list row) :
  Forall five_cells rows -> rows <> [] -> width rows = 5%nat.
Proof.
  unfold width; induction 1 as [|r rows Hr Hrows IH]; [congruence|].
  intros _; cbn [map fold_right]; rewrite Hr.
  destruct rows as [|r' rows]; [reflexivity|].
  rewrite IH by discriminate; reflexivity.
Qed.

Lemma record_of_made (number : Type) (to_numeric : option str -> number)
    (property_type : str) (cells : row) :
  five_cells cells ->
  made_of to_numeric property_type cells
          (record_of to_numeric property_type cells).
Proof.
  unfold five_cells; intros H.
  destruct cells as [|a [|b [|c [|d [|e [|f cells]]]]]]; try discriminate H.
  exists a, b, c, d, e; split; reflexivity.
Qed.

(** The frame of records of five cells loses none. *)
Lemma data_frame_made (number : Type) (to_numeric : option str -> number)
    (property_type : str) (rows : list row) :
  Forall five_cells rows ->
  Forall2 (made_of to_numeric property_type) rows
          (data_frame to_numeric property_type rows).
Proof.
  intros H; unfold data_frame.
  destruct rows as [|r rows]; [constructor|].
  rewrite (width_five H) by discriminate; cbn [Nat.eqb].
  induction H as [|x l Hx Hl IH]; [constructor|].
  cbn [map]; constructor; [apply record_of_made; exact Hx | exact IH].
Qed.

Lemma last_app_nonempty {A} (a b : list A) (d : A) :
  b <> [] -> last (a ++ b) d = last b d.
Proof.
  intros Hb; induction a as [|x a IH]; [reflexivity|].
  cbn [app]; rewrite <- IH.
  destruct (a ++ b) eqn:E; [|reflexivity].
  apply app_eq_nil in E; destruct E as [_ E]; contradiction.
Qed.

Lemma duplicate_detected_eq (page : nat) (plots_data all_plots_data : list row) :
  duplicate_detected page plots_data (all_plots_data ++ plots_data)
  = (1 <? page)%nat && (0 <? List.length plots_data)%nat
    && match hd [] plots_data with [] => false | _ => true end
    && match last plots_data [] with [] => false | _ => true end
    && row_eqb (hd [] plots_data) (last plots_data []).
Proof.
  unfold duplicate_detected; cbv zeta.
  replace (List.length plots_data
           <=? List.length (all_plots_data ++ plots_data))%nat with true
    by (symmetry; apply Nat.leb_le; rewrite length_app; lia).
  destruct plots_data as [|r plots].
  - cbn [List.length Nat.ltb Nat.leb]; rewrite !andb_false_r; reflexivity.
  - rewrite last_app_nonempty by discriminate.
    rewrite andb_true_r, !andb_assoc; reflexivity.
Qed.

End ServiceFacts.

Import LangChainFinalRAG Main TabularScraper ServiceFacts.

(** ** Greetings *)

(** X10: [_is_greeting] never raises (the index 1 of the split always
    exists), and it answers true only for a question in which, lower-cased
    and stripped, one of the greetings or casual phrases occurs. *)
Theorem greeting_sound (U : unicode_db) (query : str) :
  exists answer,
    _is_greeting U query = Value answer
    /\ (answer = true ->
        existsb (fun phrase => contains phrase (strip (lower U query)))
                (greetings ++ casual_questions) = true).
Proof.
  destruct (is_greeting_cases U query) as [H | [H Hg]]; cbv zeta in *.
  - eexists; split; [exact H|].
    intros E; rewrite existsb_app, E; apply orb_true_r.
  - exists true; split; [exact H|].
    intros _; rewrite existsb_app, Hg; reflexivity.
Qed.

(** X11: a question in which a casual phrase ("how are you", "what's up",
    ...) occurs is a greeting, whatever else it asks. *)
Theorem casual_is_greeting (U : unicode_db) (query : str) :
  existsb (fun casual => contains casual (strip (lower U query)))
          casual_questions = true ->
  _is_greeting U query = Value true.
Proof.
  intros Hc; destruct (is_greeting_cases U query) as [H | [H _]];
    cbv zeta in *; [rewrite H, Hc; reflexivity | exact H].
Qed.

Lemma casual_is_greeting_witness :
  _is_greeting ascii_db (py "Plots in Pune, how are you priced?")
  = Value true.
Proof.
  apply (@casual_is_greeting ascii_db
           (py "Plots in Pune, how are you priced?")).
  vm_compute; reflexivity.
Defined.

(** ** Confidence *)

(** X12: the confidence does not decrease when more source documents are
    found; it is 0.3 for none and 0.9 from five documents on. *)
Theorem confidence_monotone {A B} (fewer : list A) (more : list B) :
  (List.length fewer <= List.length more)%nat ->
  (_calculate_confidence fewer <= _calculate_confidence more)%N
  /\ (_calculate_confidence fewer = 3%N <-> fewer = [])
  /\ (_calculate_confidence more = 9%N <-> (5 <= List.length more)%nat).
Proof.
  intros H; rewrite !calculate_confidence_eq.
  assert (E0 : fewer = [] <-> List.length fewer = 0%nat)
    by (destruct fewer; split; intros E; try reflexivity; discriminate).
  rewrite E0; clear E0.
  destruct (5 <=? List.length fewer)%nat eqn:F5;
  destruct (3 <=? List.length fewer)%nat eqn:F3;
  destruct (1 <=? List.length fewer)%nat eqn:F1;
  destruct (5 <=? List.length more)%nat eqn:M5;
  destruct (3 <=? List.length more)%nat eqn:M3;
  destruct (1 <=? List.length more)%nat eqn:M1;
  repeat match goal with
         | E : (_ <=? _)%nat = true |- _ => apply Nat.leb_le in E
         | E : (_ <=? _)%nat = false |- _ => apply Nat.leb_gt in E
         end;
  try lia;
  (split; [apply N.leb_le; reflexivity|]);
  split; split; intros E; try lia; try discriminate E.
Qed.

Lemma confidence_monotone_witness :
  (_calculate_confidence [tt; tt] <= _calculate_confidence [1; 2; 3; 4; 5])%N.
Proof.
  apply (@confidence_monotone unit nat [tt; tt] [1; 2; 3; 4; 5])%nat.
  simpl; lia.
Defined.

(** ** The chat endpoint *)

Section ChatProperties.

Variables (library_error base_error W result response : Type).
Variable exception_str : exception library_error base_error -> str.
Variable query
  : str -> W -> raises library_error base_error result * W.
Variable add_timestamp
  : result -> W -> raises library_error base_error result * W.
Variable chat_response
  : result -> W -> raises library_error base_error response * W.

(** X13: an exception that leaves [chat] is an [HTTPException] with status
    500, the text of what the [try] block raised in its detail, or it is an
    exception outside [Exception] that one of the services raised on a
    message that is not blank, handed on as it is.  So no other status
    leaves the endpoint: the status 400 of its own check never reaches the
    client. *)
Theorem chat_errors_are_500 (message : str) (w w' : W)
    (e : exception library_error base_error) :
  chat exception_str query add_timestamp chat_response message w
  = (Raise response e, w') ->
  (exists e0,
     chat_try query add_timestamp chat_response message w
     = (Raise response e0, w')
     /\ (forall b, e0 <> BaseError library_error b)
     /\ (strip message = []
         /\ e0 = HTTPException library_error base_error 400
                   (py "Message cannot be empty")
         /\ w' = w
         \/ strip message <> []
            /\ service_raises query add_timestamp chat_response
                 message w e0 w')
     /\ e = HTTPException library_error base_error 500
              (py "Error processing chat message: " ++ exception_str e0))
  \/ (exists b,
        e = BaseError library_error b
        /\ strip message <> []
        /\ service_raises query add_timestamp chat_response message w e w').
Proof.
  assert (Htry : forall e0 w0,
             chat_try query add_timestamp chat_response message w
             = (Raise response e0, w0) ->
             strip message = []
             /\ e0 = HTTPException library_error base_error 400
                       (py "Message cannot be empty")
             /\ w0 = w
             \/ strip message <> []
                /\ service_raises query add_timestamp chat_response
                     message w e0 w0).
  { intros e0 w0; unfold chat_try, service_raises.
    destruct (strip message) as [|c m] eqn:Es.
    - intros H; injection H as <- <-; left; repeat split.
    - intros H; right; split; [discriminate|].
      destruct (query message w) as [[r | e1] w1] eqn:Eq.
      + right; exists r, w1; split; [reflexivity|].
        destruct (add_timestamp r w1) as [[r' | e2] w2] eqn:Et.
        * right; exists r', w2; split; [reflexivity | exact H].
        * left; injection H as <- <-; reflexivity.
      + left; injection H as <- <-; reflexivity. }
  unfold chat.
  destruct (chat_try query add_timestamp chat_response message w)
    as [[r | e0] w0] eqn:E; [discriminate|].
  specialize (Htry e0 w0 eq_refl).
  destruct e0 as [status detail | l | b]; intros H; injection H as <- <-.
  - left; eexists; split; [reflexivity|].
    split; [discriminate|]; split; [exact Htry | reflexivity].
  - left; eexists; split; [reflexivity|].
    split; [discriminate|]; split; [exact Htry | reflexivity].
  - right; exists b; split; [reflexivity|].
    destruct Htry as [[_ [Hb _]] | Htry]; [discriminate Hb | exact Htry].
Qed.

(** X14: a message that is empty or white space only is answered with
    status 500, the text of the status-400 exception in its detail; the
    retrieval service is not called and the world is left as it was. *)
Theorem blank_message_rejected (message : str) (w : W) :
  strip message = [] ->
  chat exception_str query add_timestamp chat_response message w
  = (Raise response
       (HTTPException library_error base_error 500
          (py "Error processing chat message: "
           ++ exception_str
                (HTTPException library_error base_error 400
                   (py "Message cannot be empty")))),
     w).
Proof. intros H; unfold chat, chat_try; rewrite H; reflexivity. Qed.

End ChatProperties.

Lemma chat_errors_are_500_witness :
  (exists e0 : exception unit bool,
     e0 = HTTPException unit bool 400 (py "Message cannot be empty")
     /\ HTTPException unit bool 500
          (py "Error processing chat message: 400: Message cannot be empty")
        = HTTPException unit bool 500
            (py "Error processing chat message: "
             ++ py "400: Message cannot be empty"))
  \/ exists b : bool,
       HTTPException unit bool 500
         (py "Error processing chat message: 400: Message cannot be empty")
       = BaseError unit b.
Proof.
  destruct (@chat_errors_are_500 unit bool nat unit unit
              (fun _ => py "400: Message cannot be empty")
              (fun _ w => (Return unit bool tt, S w))
              (fun r w => (Return unit bool r, w))
              (fun r w => (Return unit bool r, w))
              (py "   ") 0%nat 0%nat
              (HTTPException unit bool 500
                 (py "Error processing chat message: 400: Message cannot be empty")))
    as [[e0 [_ [_ [[[_ [He0 _]] | [Hs _]] He]]]] | [b [Hb _]]].
  - vm_compute; reflexivity.
  - left; exists e0; split; [exact He0 | exact He].
  - exfalso; apply Hs; vm_compute; reflexivity.
  - right; exists b; exact Hb.
Defined.

Lemma blank_message_rejected_witness :
  chat (fun _ : exception unit bool => py "400: Message cannot be empty")
       (fun _ w => (Return unit bool tt, S w))
       (fun r w => (Return unit bool r, w))
       (fun r w => (Return unit bool r, w))
       [32; 9; 10]%N 7%nat
  = (Raise unit
       (HTTPException unit bool 500
          (py "Error processing chat message: 400: Message cannot be empty")),
     7%nat).
Proof.
  rewrite (@blank_message_rejected unit bool nat unit unit
             (fun _ => py "400: Message cannot be empty")
             (fun _ w => (Return unit bool tt, S w))
             (fun r w => (Return unit bool r, w))
             (fun r w => (Return unit bool r, w))
             [32; 9; 10]%N 7%nat); [|vm_compute; reflexivity].
  vm_compute; reflexivity.
Defined.

(** ** The scraper *)

(** X15: every record the scraper returns has exactly five fields, whatever
    the pages hold. *)
Theorem scraped_rows_have_five_cells (fetch : nat -> TabularScraper.response)
    (max_pages : option Z) (fuel : nat) (rows : list row) :
  scrape_midc_land_bank fetch max_pages fuel = Some rows ->
  Forall five_cells rows.
Proof.
  unfold scrape_midc_land_bank.
  destruct (scrape_loop fetch max_pages fuel 1 [])
    as [[all_plots_data last_page|]|] eqn:E; intros H; inversion H; subst.
  - eapply scrape_loop_cells; [|exact E]; constructor.
  - constructor.
Qed.

Lemma scraped_rows_have_five_cells_witness :
  Forall five_cells [[py "1"; py "RO PUNE-I"; py "Chakan"; py "A-1"; py "500"]].
Proof.
  apply (@scraped_rows_have_five_cells
           (fun _ =>
              Page {| main_table :=
                        Some {| table_id := None;
                                tbody_rows :=
                                  Some [[py "1"; py "RO PUNE-I"; py "Chakan";
                                         py "A-1"; py "500"; py "View"];
                                        [py "no data"]];
                                tr_rows := [] |};
                      all_tables := [] |})
           None 3%nat).
  vm_compute; reflexivity.
Defined.

(** X16: the scraper ends after 119 page requests at most, whatever the
    server answers: a page that does not end the loop adds ten records or
    more, and 1181 records end it. *)
Theorem scrape_ends_within_119_requests
    (fetch : nat -> TabularScraper.response) (max_pages : option Z) :
  exists loop_end rows,
    (forall fuel, (119 <= fuel)%nat ->
       scrape_loop fetch max_pages fuel 1 [] = Some loop_end)
    /\ match loop_end with
       | Finished _ last_page => (last_page <= 119)%nat
       | Failed => True
       end
    /\ (forall fuel, (119 <= fuel)%nat ->
          scrape_midc_land_bank fetch max_pages fuel = Some rows).
Proof.
  destruct (@scrape_loop_ends fetch max_pages 119 1 [])
    as [loop_end [Hrun Hlast]]; [simpl; lia | simpl; lia | lia |].
  exists loop_end,
    (match loop_end with Finished all_plots_data _ => all_plots_data
                       | Failed => [] end).
  split; [exact Hrun|]; split; [exact Hlast|].
  intros fuel Hfuel; unfold scrape_midc_land_bank; rewrite (Hrun fuel Hfuel).
  destruct loop_end; reflexivity.
Qed.

(** X17: with a page limit other than 0 the scraper requests no page beyond
    the limit (and one page for a negative limit). *)
Theorem max_pages_respected (fetch : nat -> TabularScraper.response) (m : Z)
    (fuel : nat) (rows : list row) (last_page : nat) :
  m <> 0%Z ->
  scrape_loop fetch (Some m) fuel 1 [] = Some (Finished rows last_page) ->
  (Z.of_nat last_page <= Z.max 1 m)%Z.
Proof.
  intros Hm H; eapply scrape_loop_limit; [exact Hm | | exact H]; lia.
Qed.

(** X18: the page limit 0 is no limit: it is falsy in the test of the loop,
    so [max_pages=0] scrapes as [max_pages=None] does. *)
Theorem max_pages_zero_unlimited (fetch : nat -> TabularScraper.response)
    (fuel : nat) :
  scrape_midc_land_bank fetch (Some 0%Z) fuel
  = scrape_midc_land_bank fetch None fuel.
Proof.
  unfold scrape_midc_land_bank; rewrite scrape_loop_zero; reflexivity.
Qed.

Lemma max_pages_respected_witness : (Z.of_nat 2 <= Z.max 1 2)%Z.
Proof.
  apply (@max_pages_respected
           (fun _ =>
              Page {| main_table :=
                        Some {| table_id := None;
                                tbody_rows :=
                                  Some (repeat [py "1"; py "RO DHULE";
                                                py "Dhule"; py "B-2";
                                                py "900"] 10);
                                tr_rows := [] |};
                      all_tables := [] |})
           2%Z 5%nat
           (repeat [py "1"; py "RO DHULE"; py "Dhule"; py "B-2"; py "900"]
                   20)
           2%nat).
  - discriminate.
  - vm_compute; reflexivity.
Defined.

(** X19: scraping all three property types ends after 119 page requests
    per tab at most.  The combined frame is the frame of the industrial
    tab, then that of the commercial tab, then that of the residential tab;
    each holds one record for every record collected from its tab, made of
    the five cells of that record and the property type of the tab. *)
Theorem scrape_all_ends (number : Type) (to_numeric : option str -> number)
    (fetch : Z -> nat -> TabularScraper.response) (max_pages : option Z) :
  exists rows1 rows2 rows3 frame1 frame2 frame3,
    (forall fuel, (119 <= fuel)%nat ->
       scrape_midc_land_bank (fetch 1%Z) max_pages fuel = Some rows1
       /\ scrape_midc_land_bank (fetch 2%Z) max_pages fuel = Some rows2
       /\ scrape_midc_land_bank (fetch 3%Z) max_pages fuel = Some rows3
       /\ scrape_all_property_types to_numeric fetch max_pages fuel
          = Some (frame1 ++ frame2 ++ frame3))
    /\ Forall2 (made_of to_numeric (py "Industrial")) rows1 frame1
    /\ Forall2 (made_of to_numeric (py "Commercial")) rows2 frame2
    /\ Forall2 (made_of to_numeric (py "Residential")) rows3 frame3.
Proof.
  destruct (scrape_result (fetch 1%Z) max_pages) as [r1 [E1 H1]].
  destruct (scrape_result (fetch 2%Z) max_pages) as [r2 [E2 H2]].
  destruct (scrape_result (fetch 3%Z) max_pages) as [r3 [E3 H3]].
  exists r1, r2, r3,
    (data_frame to_numeric (py "Industrial") r1),
    (data_frame to_numeric (py "Commercial") r2),
    (data_frame to_numeric (py "Residential") r3).
  split; [|repeat split; apply data_frame_made; assumption].
  intros fuel Hfuel; repeat split; [auto | auto | auto |].
  unfold scrape_all_property_types, returned_frame.
  cbn [fold_left]; rewrite (E1 fuel Hfuel), (E2 fuel Hfuel),
    (E3 fuel Hfuel).
  change (tab_name 1) with (py "Industrial").
  change (tab_name 2) with (py "Commercial").
  change (tab_name 3) with (py "Residential").
  cbn [option_map].
  destruct (data_frame to_numeric (py "Industrial") r1),
    (data_frame to_numeric (py "Commercial") r2),
    (data_frame to_numeric (py "Residential") r3);
    cbn [option_map List.concat app]; rewrite ?app_nil_r; reflexivity.
Qed.

(** X20: the test named "duplicate data" never looks at an earlier page.
    The page has been added to [all_plots_data] before the test, so the
    first record of the page is compared with the last record of the same
    page. *)
Theorem duplicate_test_ignores_earlier_pages (page : nat)
    (plots_data earlier other : list row) :
  duplicate_detected page plots_data (earlier ++ plots_data)
  = duplicate_detected page plots_data (other ++ plots_data)
  /\ duplicate_detected page plots_data (earlier ++ plots_data)
     = (1 <? page)%nat && (0 <? List.length plots_data)%nat
       && match hd [] plots_data with [] => false | _ => true end
       && match last plots_data [] with [] => false | _ => true end
       && row_eqb (hd [] plots_data) (last plots_data []).
Proof.
  split; [rewrite !duplicate_detected_eq; reflexivity|].
  apply duplicate_detected_eq.
Qed.
